(** * gollm: the streaming adapters and the retry loop of package llm

    A shallow embedding of [llm/openai.go], [llm/anthropic.go] and
    [llm/types.go].  Go byte slices and Go strings are both sequences of
    bytes and are modelled by [string]; Go [int] and [time.Duration] are
    modelled by [Z], with the 64-bit wrap-around written out where the code
    does arithmetic on them. *)

From Stdlib Require Import ZArith List Bool Lia.
From Stdlib Require Import Strings.String Strings.Ascii.
From Stdlib Require Import DecimalString.
From Equations Require Import Equations.
Import ListNotations.

Local Open Scope string_scope.

(** ** Bytes *)

Module Bytes.

Definition code (c : ascii) : nat := nat_of_ascii c.

(** The line feed, Go's ['\n']. *)
Definition LF : ascii := ascii_of_nat 10.
Definition nl : string := String LF EmptyString.

(** [bytes.HasPrefix]. *)
Definition HasPrefix (s p : string) : bool := String.prefix p s.

(** [bytes.TrimPrefix]: [s] without the leading [p], or [s] itself. *)
Definition TrimPrefix (s p : string) : string :=
  if HasPrefix s p then substring (length p) (length s - length p) s else s.

Definition rev (s : string) : string :=
  string_of_list_ascii (List.rev (list_ascii_of_string s)).

(** The six ASCII bytes of Go's [asciiSpace] table. *)
Definition isAsciiSpace (c : ascii) : bool :=
  match code c with
  | 9 | 10 | 11 | 12 | 13 | 32 => true
  | _ => false
  end.

(** The white space of [unicode.IsSpace] above U+007F, by its UTF-8
    encoding: U+0085 and U+00A0 on two bytes; U+1680, U+2000..U+200A,
    U+2028, U+2029, U+202F, U+205F and U+3000 on three. *)
Definition isSpace2 (a b : ascii) : bool :=
  match code a, code b with
  | 194, 133 | 194, 160 => true
  | _, _ => false
  end.

Definition isSpace3 (a b c : ascii) : bool :=
  match code a, code b with
  | 225, 154 => Nat.eqb (code c) 128
  | 226, 128 =>
      (Nat.leb 128 (code c) && Nat.leb (code c) 138)
      || Nat.eqb (code c) 168 || Nat.eqb (code c) 169 || Nat.eqb (code c) 175
  | 226, 129 => Nat.eqb (code c) 159
  | 227, 128 => Nat.eqb (code c) 128
  | _, _ => false
  end.

(** [bytes.TrimLeftFunc(s, unicode.IsSpace)]: runes are decoded from the
    front and dropped while they are white space.  [swap] tells that the
    bytes come in reverse order, which is how [TrimRight] reads them. *)
Fixpoint trim_front (swap : bool) (s : string) : string :=
  match s with
  | EmptyString => EmptyString
  | String a s1 =>
      if isAsciiSpace a then trim_front swap s1
      else match s1 with
           | EmptyString => s
           | String b s2 =>
               if (if swap then isSpace2 b a else isSpace2 a b)
               then trim_front swap s2
               else match s2 with
                    | EmptyString => s
                    | String c s3 =>
                        if (if swap then isSpace3 c b a else isSpace3 a b c)
                        then trim_front swap s3
                        else s
                    end
           end
  end.

Definition TrimLeft (s : string) : string := trim_front false s.

(** [bytes.TrimRightFunc(s, unicode.IsSpace)]: [utf8.DecodeLastRune] finds
    a white-space rune at the end exactly when the bytes end with its
    encoding. *)
Definition TrimRight (s : string) : string := rev (trim_front true (rev s)).

(** [bytes.TrimSpace] and [strings.TrimSpace]. *)
Definition TrimSpace (s : string) : string := TrimRight (TrimLeft s).

(** The bytes up to and including the first line feed, and what follows
    them; [None] when there is no line feed. *)
Fixpoint cut_line (s : string) : option (string * string) :=
  match s with
  | EmptyString => None
  | String c s' =>
      if Ascii.eqb c LF then Some (String c EmptyString, s')
      else match cut_line s' with
           | Some (l, r) => Some (String c l, r)
           | None => None
           end
  end.

(** Writing aid for JSON text: every apostrophe stands for a double
    quote. *)
Fixpoint dq (s : string) : string :=
  match s with
  | EmptyString => EmptyString
  | String c s' => String (if Nat.eqb (code c) 39 then ascii_of_nat 34 else c) (dq s')
  end.

End Bytes.
Import Bytes.

(** ** Errors and results *)

(** Go's [error] values, as far as package llm makes or meets them. *)
Inductive error : Type :=
| io_EOF                                        (* io.EOF *)
| HTTPError (StatusCode : Z) (Message : string) (* &HTTPError{...} *)
| errors_New (msg : string)                     (* errors.New, fmt.Errorf with %s only *)
| Wrapf (msg : string) (inner : error)          (* fmt.Errorf("msg: %w", inner) *)
| JSONError (msg : string)                      (* an error of encoding/json *)
| NetError (msg : string)                       (* an error of the transport or of a body read *)
| CtxError (msg : string).                      (* ctx.Err() *)

(** [errors.As(err, &httpErr)] with [httpErr] a [*HTTPError]: the first
    [HTTPError] on the [%w] chain. *)
Fixpoint errors_As_HTTPError (err : error) : option (Z * string) :=
  match err with
  | HTTPError code msg => Some (code, msg)
  | Wrapf _ inner => errors_As_HTTPError inner
  | _ => None
  end.

Definition is_EOF (err : error) : bool :=
  match err with io_EOF => true | _ => false end.

(** types.go *)
Record ToolCall : Type := mkToolCall {
  tc_ID : string;
  tc_Type : string;
  tc_Function_Name : string;
  tc_Function_Arguments : string
}.

Record CompletionResponse : Type := mkCompletionResponse {
  Content : string;
  Model : string;
  FinishReason : string;
  ToolCalls : list ToolCall
}.

(** A Go result pair: a pointer, nil when [None], and an error, nil when
    [None]. *)
Definition result (T : Type) : Type := (option T * option error)%type.
Definition ok {T} (x : T) : result T := (Some x, None).
Definition fail {T} (e : error) : result T := (None, Some e).
Definition nil_nil {T} : result T := (None, None).

(** ** The buffered reader *)

(** A [bufio.Reader] over a response body: the bytes that are still to
    come, and the error the body reports once they are used up ([io.EOF] for
    a body that ends cleanly).  That error is reported again at every later
    read. *)
Record Reader : Type := mkReader {
  pending : string;
  at_end : error
}.

(** [reader.ReadBytes('\n')]: the bytes through the first line feed; when
    the input ends before one, the bytes read so far with the error. *)
Definition ReadBytes (r : Reader) : (string * option error) * Reader :=
  match cut_line (pending r) with
  | Some (line, more) => ((line, None), mkReader more (at_end r))
  | None => ((pending r, Some (at_end r)), mkReader EmptyString (at_end r))
  end.

Lemma cut_line_shorter (s line more : string) :
  cut_line s = Some (line, more) -> (length more < length s)%nat.
Proof.
  revert line more.
  induction s as [|c s IH]; intros line more H; simpl in H; [discriminate|].
  destruct (Ascii.eqb c LF).
  - injection H as _ <-. simpl. lia.
  - destruct (cut_line s) as [[l r]|]; [|discriminate].
    injection H as _ <-. specialize (IH l r eq_refl). simpl. lia.
Qed.

Lemma ReadBytes_shorter (r r' : Reader) (line : string) :
  ReadBytes r = ((line, None), r') -> (length (pending r') < length (pending r))%nat.
Proof.
  unfold ReadBytes. destruct (cut_line (pending r)) as [[l m]|] eqn:E; [|discriminate].
  intros H. injection H as _ <-. simpl. eapply cut_line_shorter; eauto.
Qed.

(** ** Wire types *)

(** openai.go *)
Record openaiMessage : Type := mkOpenaiMessage {
  om_Role : string;
  om_Content : string;
  om_ToolCalls : list ToolCall;
  om_ToolCallID : string;
  om_Name : string
}.

Record choice : Type := mkChoice {
  ch_Message : openaiMessage;
  ch_FinishReason : string;
  ch_Delta : openaiMessage
}.

(** The field [Error] is a pointer to a struct with the one field
    [Message]: [None] is nil. *)
Record openaiResponse : Type := mkOpenaiResponse {
  or_ID : string;
  or_Choices : list choice;
  or_Model : string;
  or_Error : option string
}.

(** anthropic.go *)
Record contentBlock : Type := mkContentBlock {
  cb_Text : string;
  cb_Type : string
}.

Record anthropicResponse : Type := mkAnthropicResponse {
  ar_Content : list contentBlock;
  ar_Model : string;
  ar_StopReason : string;
  ar_Error : option string
}.

(** ** The response body and encoding/json *)

(** [resp.Body]: the bytes not read yet, the error that ends them, and
    whether [Close] was called. *)
Record Body : Type := mkBody {
  unread : string;
  tail : error;
  closed : bool
}.

Definition Body_Close (b : Body) : Body := mkBody (unread b) (tail b) true.

(** [io.ReadAll(resp.Body)].  A body of net/http refuses a read after
    [Close]; an open one gives its bytes, and its final error unless that is
    [io.EOF]. *)
Definition io_ReadAll (b : Body) : (string * option error) * Body :=
  if closed b
  then ((EmptyString, Some (NetError "http: read on closed response body")), b)
  else ((unread b, if is_EOF (tail b) then None else Some (tail b)),
        mkBody EmptyString (tail b) false).

(** [bufio.NewReader(resp.Body)]. *)
Definition bufio_NewReader (b : Body) : Reader := mkReader (unread b) (tail b).

(** How [json.NewDecoder(body).Decode(&v)] can fail. *)
Inductive decode_failure : Type :=
| Malformed (msg : string)     (* a syntax or a type error of encoding/json *)
| NoValue                      (* io.EOF: the body holds no value at all *)
| ReadFailed (msg : string).   (* the body's read error; io.ErrUnexpectedEOF *)

Definition error_of_decode (f : decode_failure) : error :=
  match f with
  | Malformed msg => JSONError msg
  | NoValue => io_EOF
  | ReadFailed msg => NetError msg
  end.

(** encoding/json at a struct type [T].  The package is not part of the
    repository: the adapters are defined and verified over any decoder, and
    [GoJSON] below gives the one the examples run. *)
Class JSON (T : Type) : Type := {
  json_Unmarshal : string -> string + T;         (* json.Unmarshal(data, &v) *)
  json_Decode : Body -> decode_failure + T       (* json.NewDecoder(body).Decode(&v) *)
}.

(** ** The stream adapters *)

(** types.go: [CompletionStream].  [Close] only forwards to the body and is
    left out. *)
Class CompletionStream (S : Type) : Type := {
  Recv : S -> result CompletionResponse * S
}.

Record openAIStream : Type := mkOpenAIStream { oa_reader : Reader }.
Record anthropicStream : Type := mkAnthropicStream { an_reader : Reader }.

(** Keeps the equation of a scrutinee for the termination proofs. *)
Definition inspect {A : Type} (a : A) : {b : A | a = b} := exist _ a eq_refl.

Section Adapters.

Context {openai_json : JSON openaiResponse}.
Context {anthropic_json : JSON anthropicResponse}.

(** openai.go, [(s *openAIStream) Recv]. *)
Equations openAIStream_Recv (s : openAIStream) : result CompletionResponse * openAIStream
  by wf (length (pending (oa_reader s))) lt :=
openAIStream_Recv s with inspect (ReadBytes (oa_reader s)) := {
  | exist _ ((_, Some err), r') _ =>
      if is_EOF err then (fail io_EOF, mkOpenAIStream r')
      else (fail (Wrapf "failed to read stream" err), mkOpenAIStream r')
  | exist _ ((line0, None), r') Hread =>
      let line := TrimSpace line0 in
      if Nat.eqb (length line) 0 then openAIStream_Recv (mkOpenAIStream r')
      else if negb (HasPrefix line "data: ") then openAIStream_Recv (mkOpenAIStream r')
      else
        let data := TrimPrefix line "data: " in
        if String.eqb (TrimSpace data) "[DONE]" then (fail io_EOF, mkOpenAIStream r')
        else match json_Unmarshal data with
             | inl msg =>
                 (fail (Wrapf "failed to decode stream response" (JSONError msg)),
                  mkOpenAIStream r')
             | inr streamResp =>
                 match or_Error streamResp with
                 | Some m => (fail (errors_New ("OpenAI API error: " ++ m)), mkOpenAIStream r')
                 | None =>
                     match or_Choices streamResp with
                     | [] => openAIStream_Recv (mkOpenAIStream r')
                     | c :: _ =>
                         (ok (mkCompletionResponse (om_Content (ch_Delta c))
                                (or_Model streamResp)
                                (ch_FinishReason c)
                                (om_ToolCalls (ch_Delta c))),
                          mkOpenAIStream r')
                     end
                 end
             end }.
Next Obligation. eapply ReadBytes_shorter; eauto. Qed.
Next Obligation. eapply ReadBytes_shorter; eauto. Qed.
Next Obligation. eapply ReadBytes_shorter; eauto. Qed.



(** One turn of the loop of [openAIStream_Recv] on a line that was read,
    [next] being what the loop does from the following line on. *)
Definition openAIStream_turn (line0 : string) (r' : Reader)
    (next : result CompletionResponse * openAIStream)
  : result CompletionResponse * openAIStream :=
  let line := TrimSpace line0 in
  if Nat.eqb (length line) 0 then next
  else if negb (HasPrefix line "data: ") then next
  else
    let data := TrimPrefix line "data: " in
    if String.eqb (TrimSpace data) "[DONE]" then (fail io_EOF, mkOpenAIStream r')
    else match json_Unmarshal data with
         | inl msg =>
             (fail (Wrapf "failed to decode stream response" (JSONError msg)),
              mkOpenAIStream r')
         | inr streamResp =>
             match or_Error streamResp with
             | Some m => (fail (errors_New ("OpenAI API error: " ++ m)), mkOpenAIStream r')
             | None =>
                 match or_Choices streamResp with
                 | [] => next
                 | c :: _ =>
                     (ok (mkCompletionResponse (om_Content (ch_Delta c))
                            (or_Model streamResp)
                            (ch_FinishReason c)
                            (om_ToolCalls (ch_Delta c))),
                      mkOpenAIStream r')
                 end
             end
         end.

(** anthropic.go, [(s *anthropicStream) Recv].  The response carries no
    tool calls. *)
Definition anthropicStream_Recv (s : anthropicStream)
  : result CompletionResponse * anthropicStream :=
  match ReadBytes (an_reader s) with
  | ((_, Some err), r') => (fail err, mkAnthropicStream r')
  | ((line, None), r') =>
      if negb (HasPrefix line "data: ")
      then (fail (errors_New "invalid SSE format"), mkAnthropicStream r')
      else
        let data := TrimPrefix line "data: " in
        if Nat.eqb (length data) 0 then (nil_nil, mkAnthropicStream r')
        else match json_Unmarshal data with
             | inl msg => (fail (JSONError msg), mkAnthropicStream r')
             | inr streamResp =>
                 match ar_Error streamResp with
                 | Some m =>
                     (fail (errors_New ("anthropic API error: " ++ m)), mkAnthropicStream r')
                 | None =>
                     match ar_Content streamResp with
                     | [] => (nil_nil, mkAnthropicStream r')
                     | b :: _ =>
                         (ok (mkCompletionResponse (cb_Text b)
                                (ar_Model streamResp)
                                (ar_StopReason streamResp)
                                []),
                          mkAnthropicStream r')
                     end
                 end
             end
  end.

#[export] Instance openAIStream_CompletionStream : CompletionStream openAIStream :=
  {| Recv := openAIStream_Recv |}.

#[export] Instance anthropicStream_CompletionStream : CompletionStream anthropicStream :=
  {| Recv := anthropicStream_Recv |}.

End Adapters.

(** [n] calls of [Recv] in a row: what each returned, and the stream after
    the last. *)
Fixpoint Recv_n {S : Type} `{CompletionStream S} (n : nat) (s : S)
  : list (result CompletionResponse) * S :=
  match n with
  | O => ([], s)
  | Datatypes.S n' =>
      let '(x, s1) := Recv s in
      let '(xs, s2) := Recv_n n' s1 in
      (x :: xs, s2)
  end.

(** End of stream is final for the streams of type [S]: after a [Recv]
    that returned [io.EOF], every later [Recv] returns [io.EOF]. *)
Definition EOF_is_final (S : Type) `{CompletionStream S} : Prop :=
  forall s s' : S, Recv s = (fail io_EOF, s') ->
  forall n, fst (Recv_n n s') = repeat (fail io_EOF) n.

(** ** One HTTP exchange *)

Record Response : Type := mkResponse {
  StatusCode : Z;
  RespBody : Body
}.

(** What the library calls of one request return: [json.Marshal],
    [http.NewRequestWithContext], [httpClient.Do].  A failure is given by its
    message; none of the three makes an [HTTPError], a type of package
    llm. *)
Inductive Exchange : Type :=
| MarshalFails (msg : string)
| NewRequestFails (msg : string)
| DoFails (msg : string)
| DoReturns (resp : Response).

Definition http_StatusOK : Z := 200.

(** What a call has done so far: exchanges begun, waits sat out, waits cut
    short by the context.  [Requested n] marks the start of exchange [n],
    the run of [json.Marshal], [http.NewRequestWithContext] and
    [httpClient.Do] of one attempt; it is recorded also when the first or
    the second fails and nothing is sent. *)
Inductive event : Type :=
| Requested (n : nat)
| Slept (delay : Z)
| Interrupted (delay : Z).

(** The number of exchanges begun, and the events, newest first. *)
Record World : Type := mkWorld {
  started : nat;
  history : list event
}.

Definition World0 : World := mkWorld 0 [].

Section Transport.

(** What the library calls of the [n]-th exchange of the run return. *)
Variable script : nat -> Exchange.

(** Whether, in the wait that follows [n] requests, [ctx.Done()] is the
    case the [select] takes; and the text of [ctx.Err()]. *)
Variable ctx_done : nat -> bool.
Variable ctx_Err : string.

Definition exchange (w : World) : Exchange * World :=
  (script (started w), mkWorld (S (started w)) (Requested (started w) :: history w)).

(** [select { case <-ctx.Done(): ...; case <-time.After(delay): }]:
    [Some] is the error of the first case. *)
Definition select_Done_After (delay : Z) (w : World) : option error * World :=
  if ctx_done (started w)
  then (Some (CtxError ctx_Err), mkWorld (started w) (Interrupted delay :: history w))
  else (None, mkWorld (started w) (Slept delay :: history w)).

End Transport.

(** ** 64-bit arithmetic *)

(** Go's [int] (on a 64-bit platform) and [time.Duration] are [int64]:
    results wrap modulo 2^64 into [-2^63, 2^63). *)
Definition int64_wrap (z : Z) : Z := ((z + 2 ^ 63) mod 2 ^ 64 - 2 ^ 63)%Z.

(** The conversion [uint(x)]. *)
Definition uint64_of (z : Z) : Z := (z mod 2 ^ 64)%Z.

(** [x << k] at type [int64], [k] unsigned: the bits shifted out are lost,
    and a count of 64 or more leaves 0. *)
Definition int64_shl (x k : Z) : Z :=
  if (k <? 64)%Z then int64_wrap (Z.shiftl x k) else 0%Z.

(** [a * b] at type [int64]. *)
Definition int64_mul (a b : Z) : Z := int64_wrap (a * b).

(** ** The clients *)

(** Durations count nanoseconds. *)
Definition time_Second : Z := 1000000000%Z.

Record RetryConfig : Type := mkRetryConfig {
  MaxRetries : Z;
  InitialDelay : Z;
  MaxDelay : Z;
  RetryableStatusCodes : list Z
}.

(** openai.go, [NewOpenAIClient], on the field [RetryConfig] of the
    configuration ([None] is the nil pointer). *)
Definition NewOpenAIClient_RetryConfig (config : option RetryConfig) : RetryConfig :=
  match config with
  | None => mkRetryConfig 3 time_Second (5 * time_Second) [429; 500; 502; 503]%Z
  | Some rc => rc
  end.

Section Clients.

Context {openai_json : JSON openaiResponse}.
Context {anthropic_json : JSON anthropicResponse}.

Variable script : nat -> Exchange.
Variable ctx_done : nat -> bool.
Variable ctx_Err : string.

(** [c.config.RetryConfig] *)
Variable rc : RetryConfig.

(** openai.go, [(c *OpenAIClient) complete], from what the exchange gave.
    The deferred [resp.Body.Close()] runs after the body was read. *)
Definition OpenAIClient_complete_on (x : Exchange) : result CompletionResponse :=
  match x with
  | MarshalFails msg => fail (Wrapf "failed to marshal request" (JSONError msg))
  | NewRequestFails msg => fail (Wrapf "failed to create request" (NetError msg))
  | DoFails msg => fail (Wrapf "request failed" (NetError msg))
  | DoReturns resp =>
      if negb (StatusCode resp =? http_StatusOK)%Z
      then
        let '((body, _), _) := io_ReadAll (RespBody resp) in
        fail (HTTPError (StatusCode resp) body)
      else
        match json_Decode (RespBody resp) with
        | inl f => fail (Wrapf "failed to decode response" (error_of_decode f))
        | inr openaiResp =>
            match or_Error openaiResp with
            | Some m => fail (errors_New ("OpenAI API error: " ++ m))
            | None =>
                match or_Choices openaiResp with
                | [] => fail (errors_New "no completion choices returned")
                | c :: _ =>
                    ok (mkCompletionResponse (om_Content (ch_Message c))
                          (or_Model openaiResp)
                          (ch_FinishReason c)
                          (om_ToolCalls (ch_Message c)))
                end
            end
        end
  end.

Definition OpenAIClient_complete (w : World) : result CompletionResponse * World :=
  let '(x, w1) := exchange script w in
  (OpenAIClient_complete_on x, w1).

(** openai.go, [shouldRetry]. *)
Definition shouldRetry (err : error) : bool :=
  match errors_As_HTTPError err with
  | None => false
  | Some (code, _) => existsb (Z.eqb code) (RetryableStatusCodes rc)
  end.

(** openai.go, [getRetryDelay]: the literal 1 has type [time.Duration]. *)
Definition getRetryDelay (attempt : Z) : Z :=
  let delay := int64_mul (InitialDelay rc) (int64_shl 1 (uint64_of (attempt - 1))) in
  if (delay >? MaxDelay rc)%Z then MaxDelay rc else delay.

(** The loop of [Complete] with [n] iterations to go, at counter
    [attempt]. *)
Fixpoint Complete_loop (n : nat) (attempt : Z) (lastErr : option error) (w : World)
  : result CompletionResponse * World :=
  match n with
  | O =>
      (* fmt.Errorf of a nil error prints it and wraps nothing *)
      (fail match lastErr with
            | Some e => Wrapf "max retries exceeded" e
            | None => errors_New "max retries exceeded: %!w(<nil>)"
            end, w)
  | S n' =>
      let '(cancelled, w1) :=
        if (attempt >? 0)%Z
        then select_Done_After ctx_done ctx_Err (getRetryDelay attempt) w
        else (None, w) in
      match cancelled with
      | Some e => (fail e, w1)
      | None =>
          let '((resp, lastErr'), w2) := OpenAIClient_complete w1 in
          match lastErr' with
          | None => ((resp, None), w2)
          | Some e =>
              if negb (shouldRetry e) then (fail e, w2)
              else Complete_loop n' (attempt + 1)%Z (Some e) w2
          end
      end
  end.

(** openai.go, [(c *OpenAIClient) Complete]:
    [for attempt := 0; attempt <= MaxRetries; attempt++] runs
    [MaxRetries + 1] times, and not at all when that is negative. *)
Definition OpenAIClient_Complete (w : World) : result CompletionResponse * World :=
  Complete_loop (Z.to_nat (MaxRetries rc + 1)) 0%Z None w.

(** openai.go, [(c *OpenAIClient) CompleteStream], with the body as the
    call leaves it. *)
Definition OpenAIClient_CompleteStream (w : World)
  : (result openAIStream * option Body) * World :=
  let '(x, w1) := exchange script w in
  (match x with
   | MarshalFails msg => (fail (Wrapf "failed to marshal request" (JSONError msg)), None)
   | NewRequestFails msg => (fail (Wrapf "failed to create request" (NetError msg)), None)
   | DoFails msg => (fail (Wrapf "request failed" (NetError msg)), None)
   | DoReturns resp =>
       if negb (StatusCode resp =? http_StatusOK)%Z
       then
         let b1 := Body_Close (RespBody resp) in
         let '((body, _), b2) := io_ReadAll b1 in
         (fail (HTTPError (StatusCode resp) body), Some b2)
       else
         (ok (mkOpenAIStream (bufio_NewReader (RespBody resp))), Some (RespBody resp))
   end, w1).

(** anthropic.go, [(c *AnthropicClient) Complete], from what the exchange
    gave. *)
Definition AnthropicClient_Complete_on (x : Exchange) : result CompletionResponse :=
  match x with
  | MarshalFails msg => fail (JSONError msg)
  | NewRequestFails msg => fail (NetError msg)
  | DoFails msg => fail (NetError msg)
  | DoReturns resp =>
      match json_Decode (RespBody resp) with
      | inl f => fail (error_of_decode f)
      | inr anthropicResp =>
          match ar_Error anthropicResp with
          | Some m => fail (errors_New ("anthropic API error: " ++ m))
          | None =>
              match ar_Content anthropicResp with
              | [] => fail (errors_New "no content in response")
              | b :: _ =>
                  ok (mkCompletionResponse (cb_Text b)
                        (ar_Model anthropicResp)
                        (ar_StopReason anthropicResp)
                        [])
              end
          end
      end
  end.

Definition AnthropicClient_Complete (w : World) : result CompletionResponse * World :=
  let '(x, w1) := exchange script w in
  (AnthropicClient_Complete_on x, w1).

(** anthropic.go, [(c *AnthropicClient) CompleteStream], with the body as
    the call leaves it. *)
Definition AnthropicClient_CompleteStream (w : World)
  : (result anthropicStream * option Body) * World :=
  let '(x, w1) := exchange script w in
  (match x with
   | MarshalFails msg => (fail (JSONError msg), None)
   | NewRequestFails msg => (fail (NetError msg), None)
   | DoFails msg => (fail (NetError msg), None)
   | DoReturns resp =>
       (ok (mkAnthropicStream (bufio_NewReader (RespBody resp))), Some (RespBody resp))
   end, w1).

(** Attempt [k] fails with an [HTTPError] whose status is retryable. *)
Definition retryable_at (k : nat) : Prop :=
  exists code msg,
    OpenAIClient_complete_on (script k) = fail (HTTPError code msg)
    /\ In code (RetryableStatusCodes rc).

(** One more round: the wait, unless the round is the first, and the
    request. *)
Definition round (w : World) : World :=
  mkWorld (S (started w))
    (Requested (started w)
       :: (if Nat.eqb (started w) 0 then history w
           else Slept (getRetryDelay (Z.of_nat (started w))) :: history w)).

(** The world after [k] rounds, none cut short. *)
Fixpoint rounds (k : nat) : World :=
  match k with
  | O => World0
  | S k' => round (rounds k')
  end.

(** The error that the loop holds after [k] attempts. *)
Definition last_error (k : nat) : option error :=
  match k with
  | O => None
  | S k' => snd (OpenAIClient_complete_on (script k'))
  end.

End Clients.

(** ** encoding/json, as far as the wire types need it *)

Module GoJSON.

#[local] Unset Elimination Schemes.
Inductive value : Type :=
| Null
| Bool (b : bool)
| Number (literal : string)
| Str (s : string)
| Array (elements : list value)
| Object (members : list (string * value)).
#[local] Set Elimination Schemes.

(** *** Strings: [unquote] *)

Definition hex_digit (c : ascii) : option N :=
  let n := N_of_ascii c in
  if (48 <=? n)%N && (n <=? 57)%N then Some (n - 48)%N
  else if (97 <=? n)%N && (n <=? 102)%N then Some (n - 87)%N
  else if (65 <=? n)%N && (n <=? 70)%N then Some (n - 55)%N
  else None.

(** [getu4] on the four digits that follow a backslash and a [u]. *)
Definition hex4 (a b c d : ascii) : option N :=
  match hex_digit a, hex_digit b, hex_digit c, hex_digit d with
  | Some x, Some y, Some z, Some t => Some (x * 4096 + y * 256 + z * 16 + t)%N
  | _, _, _, _ => None
  end.

Definition byte_of (n : N) : ascii := ascii_of_N n.

(** [utf8.AppendRune]. *)
Definition utf8_encode (r : N) (k : string) : string :=
  if (r <? 128)%N then String (byte_of r) k
  else if (r <? 2048)%N then
    String (byte_of (192 + r / 64)) (String (byte_of (128 + r mod 64)) k)
  else if (r <? 65536)%N then
    String (byte_of (224 + r / 4096))
      (String (byte_of (128 + (r / 64) mod 64)) (String (byte_of (128 + r mod 64)) k))
  else
    String (byte_of (240 + r / 262144))
      (String (byte_of (128 + (r / 4096) mod 64))
         (String (byte_of (128 + (r / 64) mod 64)) (String (byte_of (128 + r mod 64)) k))).

Definition ReplacementChar : N := 65533.

Definition between (lo hi : N) (c : ascii) : bool :=
  (lo <=? N_of_ascii c)%N && (N_of_ascii c <=? hi)%N.

(** The bounds that [utf8.DecodeRune] puts on the second byte after the
    first byte [a], with the length of the encoding; [None] when [a] starts
    no rune of two bytes or more. *)
Definition utf8_lead (a : ascii) : option (nat * N * N) :=
  let n := N_of_ascii a in
  if (194 <=? n)%N && (n <=? 223)%N then Some (2%nat, 128, 191)%N
  else if (n =? 224)%N then Some (3%nat, 160, 191)%N
  else if (n =? 237)%N then Some (3%nat, 128, 159)%N
  else if (225 <=? n)%N && (n <=? 239)%N then Some (3%nat, 128, 191)%N
  else if (n =? 240)%N then Some (4%nat, 144, 191)%N
  else if (241 <=? n)%N && (n <=? 243)%N then Some (4%nat, 128, 191)%N
  else if (n =? 244)%N then Some (4%nat, 128, 143)%N
  else None.

(** The text of a string literal between its quotes, escapes undone and
    bytes that are not UTF-8 replaced by U+FFFD.  The scanner has checked
    the escapes before. *)
Fixpoint unquote (s : string) : string :=
  match s with
  | EmptyString => EmptyString
  | String a s1 =>
      if (N_of_ascii a <? 128)%N then
        if negb (N_of_ascii a =? 92)%N then String a (unquote s1)
        else
          match s1 with
          | EmptyString => EmptyString
          | String e s2 =>
              match N_of_ascii e with
              | 98%N => String (byte_of 8) (unquote s2)
              | 102%N => String (byte_of 12) (unquote s2)
              | 110%N => String (byte_of 10) (unquote s2)
              | 114%N => String (byte_of 13) (unquote s2)
              | 116%N => String (byte_of 9) (unquote s2)
              | 117%N =>
                  match s2 with
                  | String h1 (String h2 (String h3 (String h4 s6))) =>
                      match hex4 h1 h2 h3 h4 with
                      | None => EmptyString
                      | Some r =>
                          if (55296 <=? r)%N && (r <? 57344)%N then
                            (* a surrogate: it needs its second half *)
                            match s6 with
                            | String b1 (String b2 (String k1 (String k2
                                (String k3 (String k4 s12))))) =>
                                match (if (N_of_ascii b1 =? 92)%N && (N_of_ascii b2 =? 117)%N
                                       then hex4 k1 k2 k3 k4 else None) with
                                | Some r2 =>
                                    if (r <? 56320)%N && (56320 <=? r2)%N && (r2 <? 57344)%N
                                    then utf8_encode
                                           ((r - 55296) * 1024 + (r2 - 56320) + 65536)
                                           (unquote s12)
                                    else utf8_encode ReplacementChar (unquote s6)
                                | None => utf8_encode ReplacementChar (unquote s6)
                                end
                            | _ => utf8_encode ReplacementChar (unquote s6)
                            end
                          else utf8_encode r (unquote s6)
                      end
                  | _ => EmptyString
                  end
              | _ => String e (unquote s2)      (* quote, backslash, slash *)
              end
          end
      else
        match utf8_lead a, s1 with
        | Some (2%nat, lo, hi), String b s2 =>
            if between lo hi b then String a (String b (unquote s2))
            else utf8_encode ReplacementChar (unquote s1)
        | Some (3%nat, lo, hi), String b (String c s3) =>
            if between lo hi b && between 128 191 c
            then String a (String b (String c (unquote s3)))
            else utf8_encode ReplacementChar (unquote s1)
        | Some (4%nat, lo, hi), String b (String c (String d s4)) =>
            if between lo hi b && between 128 191 c && between 128 191 d
            then String a (String b (String c (String d (unquote s4))))
            else utf8_encode ReplacementChar (unquote s1)
        | _, _ => utf8_encode ReplacementChar (unquote s1)
        end
  end.

(** *** The scanner

    One pass over the bytes with a stack of open arrays and objects, as in
    scanner.go; the values are built on the way. *)

Inductive frame : Type :=
| InArray (elements : list value)                       (* last first *)
| InObject (members : list (string * value)) (key : string).

Inductive number_state : Type :=
| NNeg | N0 | N1 | NDot | NDot0 | NE | NESign | NE0.

Inductive escape_state : Type :=
| Plain | Backslash | Hex (todo : nat).

Inductive mode : Type :=
| BeginValue (or_end : bool)              (* a value; [true]: or the bracket that closes *)
| BeginString (or_end : bool)             (* a key; [true]: or the brace that closes *)
| EndKey                                  (* the colon *)
| EndValue                                (* a comma or the end of the array or object *)
| EndTop (v : value)                      (* white space only *)
| InString (is_key : bool) (raw : string) (e : escape_state)  (* [raw] last first *)
| InNumber (st : number_state) (lit : string)                 (* [lit] last first *)
| InLiteral (todo : string) (v : value)
| ScanError.

Definition state : Type := (list frame * mode)%type.

Definition isSpace (c : ascii) : bool :=
  match code c with
  | 32 | 9 | 13 | 10 => true
  | _ => false
  end.

Definition isDigit (c : ascii) : bool := between 48 57 c.

(** A value is complete: it goes into the array or object that is open. *)
Definition finish (stack : list frame) (v : value) : state :=
  match stack with
  | [] => ([], EndTop v)
  | InArray vs :: stack' => (InArray (v :: vs) :: stack', EndValue)
  | InObject ms k :: stack' => (InObject ((k, v) :: ms) k :: stack', EndValue)
  end.

Definition byte_is (c : ascii) (n : nat) : bool := Nat.eqb (code c) n.

(** [stateBeginValue] *)
Definition begin_value (stack : list frame) (c : ascii) : state :=
  if byte_is c 123 then (InObject [] EmptyString :: stack, BeginString true)
  else if byte_is c 91 then (InArray [] :: stack, BeginValue true)
  else if byte_is c 34 then (stack, InString false EmptyString Plain)
  else if byte_is c 45 then (stack, InNumber NNeg (String c EmptyString))
  else if byte_is c 48 then (stack, InNumber N0 (String c EmptyString))
  else if isDigit c then (stack, InNumber N1 (String c EmptyString))
  else if byte_is c 116 then (stack, InLiteral "rue" (Bool true))
  else if byte_is c 102 then (stack, InLiteral "alse" (Bool false))
  else if byte_is c 110 then (stack, InLiteral "ull" Null)
  else (stack, ScanError).

(** [stateEndValue] inside an array or an object. *)
Definition end_value (stack : list frame) (c : ascii) : state :=
  match stack with
  | InArray vs :: stack' =>
      if byte_is c 44 then (stack, BeginValue false)
      else if byte_is c 93 then finish stack' (Array (List.rev vs))
      else (stack, ScanError)
  | InObject ms _ :: stack' =>
      if byte_is c 44 then (stack, BeginString false)
      else if byte_is c 125 then finish stack' (Object (List.rev ms))
      else (stack, ScanError)
  | [] => (stack, ScanError)
  end.

(** After a value: [stateEndValue], or [stateEndTop] at the top. *)
Definition after (st : state) (c : ascii) : state :=
  match st with
  | (stack, EndValue) => if isSpace c then st else end_value stack c
  | (stack, EndTop v) => if isSpace c then st else (stack, ScanError)
  | _ => st
  end.

Definition number_step (ns : number_state) (c : ascii) : option number_state :=
  match ns with
  | NNeg => if byte_is c 48 then Some N0 else if isDigit c then Some N1 else None
  | N1 =>
      if isDigit c then Some N1
      else if byte_is c 46 then Some NDot
      else if byte_is c 101 || byte_is c 69 then Some NE else None
  | N0 => if byte_is c 46 then Some NDot else if byte_is c 101 || byte_is c 69 then Some NE else None
  | NDot => if isDigit c then Some NDot0 else None
  | NDot0 => if isDigit c then Some NDot0 else if byte_is c 101 || byte_is c 69 then Some NE else None
  | NE => if byte_is c 43 || byte_is c 45 then Some NESign else if isDigit c then Some NE0 else None
  | NESign => if isDigit c then Some NE0 else None
  | NE0 => if isDigit c then Some NE0 else None
  end.

(** The states in which a number may end. *)
Definition number_done (ns : number_state) : bool :=
  match ns with
  | N0 | N1 | NDot0 | NE0 => true
  | _ => false
  end.

Definition step (st : state) (c : ascii) : state :=
  let '(stack, m) := st in
  match m with
  | BeginValue or_end =>
      if isSpace c then st
      else if or_end && byte_is c 93 then
        match stack with
        | InArray _ :: stack' => finish stack' (Array [])
        | _ => (stack, ScanError)
        end
      else begin_value stack c
  | BeginString or_end =>
      if isSpace c then st
      else if or_end && byte_is c 125 then
        match stack with
        | InObject _ _ :: stack' => finish stack' (Object [])
        | _ => (stack, ScanError)
        end
      else if byte_is c 34 then (stack, InString true EmptyString Plain)
      else (stack, ScanError)
  | EndKey =>
      if isSpace c then st
      else if byte_is c 58 then (stack, BeginValue false)
      else (stack, ScanError)
  | EndValue | EndTop _ => after st c
  | InString is_key raw Plain =>
      if byte_is c 34 then
        let s := unquote (Bytes.rev raw) in
        if is_key then
          match stack with
          | InObject ms _ :: stack' => (InObject ms s :: stack', EndKey)
          | _ => (stack, ScanError)
          end
        else finish stack (Str s)
      else if byte_is c 92 then (stack, InString is_key (String c raw) Backslash)
      else if Nat.ltb (code c) 32 then (stack, ScanError)
      else (stack, InString is_key (String c raw) Plain)
  | InString is_key raw Backslash =>
      if byte_is c 98 || byte_is c 102 || byte_is c 110 || byte_is c 114 || byte_is c 116
         || byte_is c 92 || byte_is c 47 || byte_is c 34
      then (stack, InString is_key (String c raw) Plain)
      else if byte_is c 117 then (stack, InString is_key (String c raw) (Hex 4))
      else (stack, ScanError)
  | InString is_key raw (Hex n) =>
      match hex_digit c, n with
      | Some _, S O => (stack, InString is_key (String c raw) Plain)
      | Some _, S n' => (stack, InString is_key (String c raw) (Hex n'))
      | _, _ => (stack, ScanError)
      end
  | InNumber ns lit =>
      match number_step ns c with
      | Some ns' => (stack, InNumber ns' (String c lit))
      | None =>
          if number_done ns then after (finish stack (Number (Bytes.rev lit))) c
          else (stack, ScanError)
      end
  | InLiteral todo v =>
      match todo with
      | String d EmptyString => if Ascii.eqb c d then finish stack v else (stack, ScanError)
      | String d todo' =>
          if Ascii.eqb c d then (stack, InLiteral todo' v) else (stack, ScanError)
      | EmptyString => (stack, ScanError)
      end
  | ScanError => st
  end.

Definition start : state := ([], BeginValue false).

(** The whole text, for [Unmarshal]. *)
Fixpoint scan (st : state) (s : string) : state :=
  match s with
  | EmptyString => st
  | String c s' => scan (step st c) s'
  end.

(** Up to the end of the first value, for a [Decoder]; the flag tells
    whether a byte other than white space was met. *)
Fixpoint scan_first (st : state) (seen : bool) (s : string) : state * bool :=
  match st, s with
  | (_, EndTop _), _ | (_, ScanError), _ | _, EmptyString => (st, seen)
  | ([], InNumber ns lit), String c s' =>
      (* the byte that ends a number at the top is not looked at yet *)
      match number_step ns c with
      | None => (if number_done ns then ([], EndTop (Number (Bytes.rev lit)))
                 else ([], ScanError), seen)
      | Some _ => scan_first (step st c) seen s'
      end
  | _, String c s' => scan_first (step st c) (seen || negb (isSpace c)) s'
  end.

(** What the end of the input makes of the state: a number at the top
    ends there. *)
Definition at_eof (st : state) : state :=
  match st with
  | ([], InNumber ns lit) =>
      if number_done ns then ([], EndTop (Number (Bytes.rev lit))) else st
  | _ => st
  end.

(** *** Values into structs

    decode.go for the struct types of package llm.  A key selects a field
    without regard to case; members that name no field are skipped; [null]
    leaves a string or a struct as it is and makes a slice or a pointer
    nil.  When a key comes twice in one object, a string or a struct is
    decoded into what the earlier member left, as in Go; a slice or a
    pointer is decoded afresh, where Go goes on from the earlier
    elements. *)

(** [foldName]: ASCII letters to upper case; U+017F and U+212A fold to S
    and K. *)
Fixpoint fold (s : string) : string :=
  match s with
  | EmptyString => EmptyString
  | String a s1 =>
      if between 97 122 a then String (byte_of (N_of_ascii a - 32)) (fold s1)
      else
        match s1 with
        | String b s2 =>
            if byte_is a 197 && byte_is b 191 then String "S" (fold s2)
            else
              match s2 with
              | String c s3 =>
                  if byte_is a 226 && byte_is b 132 && byte_is c 170
                  then String "K" (fold s3)
                  else String a (fold s1)
              | EmptyString => String a (fold s1)
              end
        | EmptyString => String a EmptyString
        end
  end.

Definition decoded (T : Type) : Type := (string + T)%type.

Definition bind {A B} (x : decoded A) (f : A -> decoded B) : decoded B :=
  match x with
  | inl e => inl e
  | inr a => f a
  end.

Definition type_error {T} (what into : string) : decoded T :=
  inl ("json: cannot unmarshal " ++ what ++ " into Go value of type " ++ into).

Definition kind (v : value) : string :=
  match v with
  | Null => "null"
  | Bool _ => "bool"
  | Number _ => "number"
  | Str _ => "string"
  | Array _ => "array"
  | Object _ => "object"
  end.

Definition into_string (old : string) (v : value) : decoded string :=
  match v with
  | Null => inr old
  | Str s => inr s
  | _ => type_error (kind v) "string"
  end.

(** The members of an object, in order, each into the field its key
    names. *)
Fixpoint into_fields {T} (set : string -> value -> T -> decoded T)
    (ms : list (string * value)) (x : T) : decoded T :=
  match ms with
  | [] => inr x
  | (k, v) :: ms' => bind (set (fold k) v x) (into_fields set ms')
  end.

Definition into_struct {T} (name : string) (set : string -> value -> T -> decoded T)
    (old : T) (v : value) : decoded T :=
  match v with
  | Null => inr old
  | Object ms => into_fields set ms old
  | _ => type_error (kind v) name
  end.

Fixpoint into_elements {T} (elem : value -> decoded T) (vs : list value) : decoded (list T) :=
  match vs with
  | [] => inr []
  | v :: vs' => bind (elem v) (fun x => bind (into_elements elem vs') (fun xs => inr (x :: xs)))
  end.

Definition into_slice {T} (name : string) (elem : value -> decoded T) (v : value)
  : decoded (list T) :=
  match v with
  | Null => inr []
  | Array vs => into_elements elem vs
  | _ => type_error (kind v) name
  end.

(** A pointer to a struct with the one string field [message]. *)
Definition into_error (v : value) : decoded (option string) :=
  match v with
  | Null => inr None
  | _ =>
      bind (into_struct "struct"
              (fun k v m => if String.eqb k "MESSAGE" then into_string m v else inr m)
              EmptyString v)
           (fun m => inr (Some m))
  end.

Definition set_function (k : string) (v : value) (f : string * string)
  : decoded (string * string) :=
  if String.eqb k "NAME" then bind (into_string (fst f) v) (fun s => inr (s, snd f))
  else if String.eqb k "ARGUMENTS" then bind (into_string (snd f) v) (fun s => inr (fst f, s))
  else inr f.

Definition set_ToolCall (k : string) (v : value) (t : ToolCall) : decoded ToolCall :=
  if String.eqb k "ID" then
    bind (into_string (tc_ID t) v)
         (fun s => inr (mkToolCall s (tc_Type t) (tc_Function_Name t) (tc_Function_Arguments t)))
  else if String.eqb k "TYPE" then
    bind (into_string (tc_Type t) v)
         (fun s => inr (mkToolCall (tc_ID t) s (tc_Function_Name t) (tc_Function_Arguments t)))
  else if String.eqb k "FUNCTION" then
    bind (into_struct "struct" set_function
            (tc_Function_Name t, tc_Function_Arguments t) v)
         (fun f => inr (mkToolCall (tc_ID t) (tc_Type t) (fst f) (snd f)))
  else inr t.

Definition ToolCall0 : ToolCall := mkToolCall "" "" "" "".

Definition set_openaiMessage (k : string) (v : value) (m : openaiMessage)
  : decoded openaiMessage :=
  if String.eqb k "ROLE" then
    bind (into_string (om_Role m) v)
         (fun s => inr (mkOpenaiMessage s (om_Content m) (om_ToolCalls m)
                          (om_ToolCallID m) (om_Name m)))
  else if String.eqb k "CONTENT" then
    bind (into_string (om_Content m) v)
         (fun s => inr (mkOpenaiMessage (om_Role m) s (om_ToolCalls m)
                          (om_ToolCallID m) (om_Name m)))
  else if String.eqb k "TOOL_CALLS" then
    bind (into_slice "[]llm.ToolCall" (into_struct "llm.ToolCall" set_ToolCall ToolCall0) v)
         (fun l => inr (mkOpenaiMessage (om_Role m) (om_Content m) l
                          (om_ToolCallID m) (om_Name m)))
  else if String.eqb k "TOOL_CALL_ID" then
    bind (into_string (om_ToolCallID m) v)
         (fun s => inr (mkOpenaiMessage (om_Role m) (om_Content m) (om_ToolCalls m)
                          s (om_Name m)))
  else if String.eqb k "NAME" then
    bind (into_string (om_Name m) v)
         (fun s => inr (mkOpenaiMessage (om_Role m) (om_Content m) (om_ToolCalls m)
                          (om_ToolCallID m) s))
  else inr m.

Definition openaiMessage0 : openaiMessage := mkOpenaiMessage "" "" [] "" "".

Definition set_choice (k : string) (v : value) (c : choice) : decoded choice :=
  if String.eqb k "MESSAGE" then
    bind (into_struct "llm.openaiMessage" set_openaiMessage (ch_Message c) v)
         (fun m => inr (mkChoice m (ch_FinishReason c) (ch_Delta c)))
  else if String.eqb k "FINISH_REASON" then
    bind (into_string (ch_FinishReason c) v)
         (fun s => inr (mkChoice (ch_Message c) s (ch_Delta c)))
  else if String.eqb k "DELTA" then
    bind (into_struct "llm.openaiMessage" set_openaiMessage (ch_Delta c) v)
         (fun m => inr (mkChoice (ch_Message c) (ch_FinishReason c) m))
  else inr c.

Definition choice0 : choice := mkChoice openaiMessage0 "" openaiMessage0.

Definition set_openaiResponse (k : string) (v : value) (r : openaiResponse)
  : decoded openaiResponse :=
  if String.eqb k "ID" then
    bind (into_string (or_ID r) v)
         (fun s => inr (mkOpenaiResponse s (or_Choices r) (or_Model r) (or_Error r)))
  else if String.eqb k "CHOICES" then
    bind (into_slice "[]llm.choice" (into_struct "llm.choice" set_choice choice0) v)
         (fun l => inr (mkOpenaiResponse (or_ID r) l (or_Model r) (or_Error r)))
  else if String.eqb k "MODEL" then
    bind (into_string (or_Model r) v)
         (fun s => inr (mkOpenaiResponse (or_ID r) (or_Choices r) s (or_Error r)))
  else if String.eqb k "ERROR" then
    bind (into_error v)
         (fun e => inr (mkOpenaiResponse (or_ID r) (or_Choices r) (or_Model r) e))
  else inr r.

Definition openaiResponse0 : openaiResponse := mkOpenaiResponse "" [] "" None.

Definition set_contentBlock (k : string) (v : value) (b : contentBlock)
  : decoded contentBlock :=
  if String.eqb k "TEXT" then
    bind (into_string (cb_Text b) v) (fun s => inr (mkContentBlock s (cb_Type b)))
  else if String.eqb k "TYPE" then
    bind (into_string (cb_Type b) v) (fun s => inr (mkContentBlock (cb_Text b) s))
  else inr b.

Definition contentBlock0 : contentBlock := mkContentBlock "" "".

Definition set_anthropicResponse (k : string) (v : value) (r : anthropicResponse)
  : decoded anthropicResponse :=
  if String.eqb k "CONTENT" then
    bind (into_slice "[]llm.contentBlock"
            (into_struct "llm.contentBlock" set_contentBlock contentBlock0) v)
         (fun l => inr (mkAnthropicResponse l (ar_Model r) (ar_StopReason r) (ar_Error r)))
  else if String.eqb k "MODEL" then
    bind (into_string (ar_Model r) v)
         (fun s => inr (mkAnthropicResponse (ar_Content r) s (ar_StopReason r) (ar_Error r)))
  else if String.eqb k "STOP_REASON" then
    bind (into_string (ar_StopReason r) v)
         (fun s => inr (mkAnthropicResponse (ar_Content r) (ar_Model r) s (ar_Error r)))
  else if String.eqb k "ERROR" then
    bind (into_error v)
         (fun e => inr (mkAnthropicResponse (ar_Content r) (ar_Model r) (ar_StopReason r) e))
  else inr r.

Definition anthropicResponse0 : anthropicResponse := mkAnthropicResponse [] "" "" None.

(** *** [Unmarshal] and [Decode] *)

Definition Unmarshal {T} (into : value -> decoded T) (data : string) : decoded T :=
  match at_eof (scan start data) with
  | ([], EndTop v) => into v
  | (_, ScanError) => inl "invalid character"
  | _ => inl "unexpected end of JSON input"
  end.

Definition Decode {T} (into : value -> decoded T) (b : Body) : decode_failure + T :=
  if closed b then inl (ReadFailed "http: read on closed response body")
  else
    let '(st, seen) := scan_first start false (unread b) in
    match (if is_EOF (tail b) then at_eof st else st) with
    | ([], EndTop v) =>
        match into v with
        | inl e => inl (Malformed e)
        | inr x => inr x
        end
    | (_, ScanError) => inl (Malformed "invalid character")
    | _ =>
        match tail b with
        | io_EOF => inl (if seen then ReadFailed "unexpected EOF" else NoValue)
        | _ => inl (ReadFailed "read error")
        end
    end.

#[export] Instance openaiResponse_JSON : JSON openaiResponse := {|
  json_Unmarshal := Unmarshal (into_struct "llm.openaiResponse" set_openaiResponse openaiResponse0);
  json_Decode := Decode (into_struct "llm.openaiResponse" set_openaiResponse openaiResponse0)
|}.

#[export] Instance anthropicResponse_JSON : JSON anthropicResponse := {|
  json_Unmarshal :=
    Unmarshal (into_struct "llm.anthropicResponse" set_anthropicResponse anthropicResponse0);
  json_Decode :=
    Decode (into_struct "llm.anthropicResponse" set_anthropicResponse anthropicResponse0)
|}.

End GoJSON.

(** ** The test streams of the repository *)

Module Samples.

(** openai_test.go, [TestOpenAIClient_CompleteStream], "successful
    streaming": the three writes of the server. *)
Definition openai_events : string :=
  dq "data: {'choices':[{'delta':{'content':'Hello'}}]}" ++ nl ++ nl
  ++ dq "data: {'choices':[{'delta':{'content':' World'}}]}" ++ nl ++ nl
  ++ "data: [DONE]" ++ nl ++ nl.

(** [TestAnthropicClient_CompleteStream], "successful streaming". *)
Definition anthropic_events : string :=
  dq "data: {'content':[{'type':'text','text':'Hello'}],'model':'claude-3-opus-20240229'}"
  ++ nl ++ nl
  ++ dq "data: {'content':[{'type':'text','text':' World'}],'model':'claude-3-opus-20240229'}"
  ++ nl ++ nl
  ++ "data: [DONE]" ++ nl ++ nl.

(** The same events, one per line, without the blank lines. *)
Definition anthropic_events_dense : string :=
  dq "data: {'content':[{'type':'text','text':'Hello'}],'model':'claude-3-opus-20240229'}"
  ++ nl
  ++ dq "data: {'content':[{'type':'text','text':' World'}],'model':'claude-3-opus-20240229'}"
  ++ nl
  ++ "data: [DONE]" ++ nl.

Definition openai_stream (bytes : string) : openAIStream :=
  mkOpenAIStream (mkReader bytes io_EOF).

Definition anthropic_stream (bytes : string) : anthropicStream :=
  mkAnthropicStream (mkReader bytes io_EOF).

Definition text (c : string) (m : string) : result CompletionResponse :=
  ok (mkCompletionResponse c m "" []).

End Samples.

(** ** The test servers of the repository *)

Module RetryRuns.

(** openai_test.go, [TestOpenAIClient_RetryBehavior]: the policy, the reply
    with status 429 and the reply that the server encodes at the third
    request. *)
Definition test_policy : RetryConfig :=
  mkRetryConfig 3 10000000 50000000 [429]%Z.

Definition too_many_requests : Exchange :=
  DoReturns (mkResponse 429 (mkBody EmptyString io_EOF false)).



(** [TestOpenAIClient_Complete], "API error": status 401 with an error
    object. *)
Definition unauthorized : Exchange :=
  DoReturns
    (mkResponse 401
       (mkBody (dq "{'error':{'message':'Invalid API key'}}") io_EOF false)).

Definition never (n : nat) : bool := false.

End RetryRuns.



(** ** Error texts *)

(** The verb [%d] of package fmt on an [int]. *)
Definition decimal (z : Z) : string := NilZero.string_of_int (Z.to_int z).

(** [err.Error()].  openai.go gives the text of an [HTTPError];
    [fmt.Errorf] with [%w] puts the text of the wrapped error after a colon;
    the other errors carry their text. *)
Fixpoint Error (err : error) : string :=
  match err with
  | io_EOF => "EOF"
  | HTTPError code msg => "HTTP " ++ decimal code ++ ": " ++ msg
  | errors_New msg => msg
  | Wrapf msg inner => msg ++ ": " ++ Error inner
  | JSONError msg => msg
  | NetError msg => msg
  | CtxError msg => msg
  end.

(** ** The configuration of the OpenAI client *)

Definition defaultTimeout : Z := (30 * time_Second)%Z.
Definition defaultBaseURL : string := "https://api.openai.com/v1".

(** An [http.Client], by its field [Timeout]. *)
Record http_Client : Type := mk_http_Client { hc_Timeout : Z }.

(** openai.go, [OpenAIConfig]; [None] is a nil pointer. *)
Record OpenAIConfig : Type := mkOpenAIConfig {
  APIKey : string;
  BaseURL : string;
  Timeout : Z;
  HTTPClient : option http_Client;
  cfg_RetryConfig : option RetryConfig
}.

Record OpenAIClient : Type := mkOpenAIClient {
  config : OpenAIConfig;
  httpClient : option http_Client
}.

(** openai.go, [NewOpenAIClient]. *)
Definition NewOpenAIClient (config : OpenAIConfig) : OpenAIClient :=
  let base := if String.eqb (BaseURL config) EmptyString then defaultBaseURL
              else BaseURL config in
  let timeout := if (Timeout config =? 0)%Z then defaultTimeout else Timeout config in
  let client := match HTTPClient config with
                | None => Some (mk_http_Client timeout)
                | Some c => Some c
                end in
  let retry := Some (NewOpenAIClient_RetryConfig (cfg_RetryConfig config)) in
  mkOpenAIClient (mkOpenAIConfig (APIKey config) base timeout client retry) client.

(** openai.go, [NewOpenAIClientWithKey]. *)
Definition NewOpenAIClientWithKey (apiKey : string) : OpenAIClient :=
  NewOpenAIClient (mkOpenAIConfig apiKey EmptyString 0 None None).

(** [strings.TrimRight(s, "/")]: the bytes of [s] up to its last byte that
    is not a slash. *)
Fixpoint TrimRight_slash (s : string) : string :=
  match s with
  | EmptyString => EmptyString
  | String c s' =>
      match TrimRight_slash s' with
      | EmptyString => if Nat.eqb (code c) 47 then EmptyString else String c EmptyString
      | t => String c t
      end
  end.

(** [n] slashes in a row. *)
Fixpoint slashes (n : nat) : string :=
  match n with
  | O => EmptyString
  | S n' => String "/"%char (slashes n')
  end.

(** openai.go, [complete] and [CompleteStream]: the URL of the request. *)
Definition endpoint (c : OpenAIClient) : string :=
  TrimRight_slash (BaseURL (config c)) ++ "/chat/completions".

(** ** The receiving loops of the examples *)

Section Examples.

Context {openai_json : JSON openaiResponse}.

(** A [Recv] that returns no error has read at least one line. *)
Lemma openAIStream_Recv_shorter (s s' : openAIStream) (chunk : option CompletionResponse) :
  openAIStream_Recv s = ((chunk, None), s') ->
  (length (pending (oa_reader s')) < length (pending (oa_reader s)))%nat.
Proof.
  revert s' chunk. funelim (openAIStream_Recv s); intros s' chunk Hres.
  - destruct (is_EOF err); discriminate Hres.
  - pose proof (ReadBytes_shorter _ _ _ Hread) as Hlt. cbv zeta in *.
    destruct (Nat.eqb _ 0).
    { specialize (H _ _ Hres). cbn [oa_reader] in H. lia. }
    destruct (negb _).
    { specialize (H _ _ Hres). cbn [oa_reader] in H. lia. }
    destruct (String.eqb _ "[DONE]"); [discriminate Hres|].
    destruct (json_Unmarshal _) as [msg|resp]; [discriminate Hres|].
    destruct (or_Error resp); [discriminate Hres|].
    destruct (or_Choices resp).
    + specialize (H0 resp _ _ Hres). cbn [oa_reader] in H0. lia.
    + injection Hres as _ <-. cbn [oa_reader]. exact Hlt.
Qed.

(** How a receiving loop is left: by [break], by [return] of an error, or
    by the panic of a field read through a nil response. *)
Inductive loop_exit : Type :=
| Break
| Return (err : error)
| Panic.

(** examples/chat/chat.go, [runStreamingCompletion]: the loop, with what it
    has printed. *)
Equations runStreamingCompletion_loop (s : openAIStream) (out : string) : string * loop_exit
  by wf (length (pending (oa_reader s))) lt :=
runStreamingCompletion_loop s out with inspect (openAIStream_Recv s) := {
  | exist _ ((_, Some err), _) _ =>
      if String.eqb (Error err) "EOF" then (out, Break)
      else (out, Return (Wrapf "error receiving stream" err))
  | exist _ ((None, None), _) _ => (out, Panic)
  | exist _ ((Some chunk, None), s') Hrecv =>
      runStreamingCompletion_loop s'
        (if negb (String.eqb (Content chunk) EmptyString) then out ++ Content chunk else out) }.
Next Obligation. eapply openAIStream_Recv_shorter; eauto. Qed.

(** examples/tools/weather.go, [runStreamingExample]: the first loop, with
    the tool calls it has gathered and what it has printed. *)
Equations runStreamingExample_loop (s : openAIStream) (toolCalls : list ToolCall) (out : string)
  : (list ToolCall * string) * loop_exit
  by wf (length (pending (oa_reader s))) lt :=
runStreamingExample_loop s toolCalls out with inspect (openAIStream_Recv s) := {
  | exist _ ((_, Some err), _) _ =>
      if is_EOF err then ((toolCalls, out), Break)
      else ((toolCalls, out), Return (Wrapf "error receiving stream" err))
  | exist _ ((None, None), _) _ => ((toolCalls, out), Panic)
  | exist _ ((Some chunk, None), s') Hrecv =>
      runStreamingExample_loop s'
        (if Nat.ltb 0 (List.length (ToolCalls chunk)) then toolCalls ++ ToolCalls chunk
         else toolCalls)
        (if negb (String.eqb (Content chunk) EmptyString) then out ++ Content chunk else out) }.
Next Obligation. eapply openAIStream_Recv_shorter; eauto. Qed.

End Examples.

(** ** More servers and policies *)

Module MoreRuns.

(** examples/chat/chat.go, [RunExample]: a policy that names no status
    code. *)
Definition chat_policy : RetryConfig :=
  mkRetryConfig 3 time_Second (5 * time_Second) [].


(** A server that answers 429 once and 401 from then on. *)
Definition busy_then_unauthorized (n : nat) : Exchange :=
  if Nat.eqb n 0 then RetryRuns.too_many_requests else RetryRuns.unauthorized.

(** Lines of an event stream that carry no [data] field. *)
Definition other_fields : list string :=
  ["event: message"; ""; ": keep-alive"; "id: 7"].

Definition hello_event : string :=
  dq "data: {'choices':[{'delta':{'content':'Hello'}}]}".

(** [TestAnthropicClient_Complete], "successful completion": the body of
    the reply without its white space, and a server that sends it under a
    given status. *)
Definition test_response : Body :=
  mkBody (dq "{'content':[{'type':'text','text':'Test response'}],"
          ++ dq "'model':'claude-3-opus-20240229','stop_reason':'stop'}")
    io_EOF false.

Definition replies_with (status : Z) (n : nat) : Exchange :=
  DoReturns (mkResponse status test_response).

(** examples/tools/weather.go, [RunExample]: the configuration. *)
Definition weather_config (apiKey : string) : OpenAIConfig :=
  mkOpenAIConfig apiKey EmptyString (60 * time_Second) None
    (Some (mkRetryConfig 5 (2 * time_Second) (10 * time_Second) [])).

End MoreRuns.

(** * Properties *)

(** ** The reader *)

Lemma ReadBytes_at_end (r : Reader) :
  pending r = EmptyString -> ReadBytes r = ((EmptyString, Some (at_end r)), r).
Proof. destruct r as [p e]; simpl; intros ->; reflexivity. Qed.

Lemma ReadBytes_error (r r' : Reader) (part : string) (err : error) :
  ReadBytes r = ((part, Some err), r') ->
  err = at_end r /\ pending r' = EmptyString /\ at_end r' = at_end r.
Proof.
  unfold ReadBytes. intros H.
  destruct (cut_line (pending r)) as [[l m]|]; [discriminate H|].
  injection H as _ <- <-. auto.
Qed.

Lemma cut_line_app (line more : string) :
  cut_line line = None -> cut_line (line ++ nl ++ more) = Some (line ++ nl, more).
Proof.
  induction line as [|c line IH]; intros H; [reflexivity|].
  cbn [cut_line append] in *.
  destruct (Ascii.eqb c LF); [discriminate H|].
  destruct (cut_line line) as [[l r]|]; [discriminate H|].
  rewrite (IH eq_refl). reflexivity.
Qed.

(** A line that the reader holds in full is what [ReadBytes] returns. *)
Lemma ReadBytes_line (line more : string) (e : error) :
  cut_line line = None ->
  ReadBytes (mkReader (line ++ nl ++ more) e) = ((line ++ nl, None), mkReader more e).
Proof.
  intros H. unfold ReadBytes. cbn [pending at_end].
  rewrite (cut_line_app _ _ H). reflexivity.
Qed.

(** ** Strings *)

Lemma append_assoc (a b c : string) : (a ++ b) ++ c = a ++ (b ++ c).
Proof. induction a as [|x a IH]; [reflexivity|]. cbn [append]. now rewrite IH. Qed.

Lemma append_empty_r (a : string) : a ++ EmptyString = a.
Proof. induction a as [|x a IH]; [reflexivity|]. cbn [append]. now rewrite IH. Qed.

Lemma length_append (a b : string) : length (a ++ b) = (length a + length b)%nat.
Proof. induction a as [|x a IH]; [reflexivity|]. cbn [append length]. now rewrite IH. Qed.

(** What [cut_line] returns is the input cut in two, and the first part
    ends with the line feed. *)
Lemma cut_line_split (s line more : string) :
  cut_line s = Some (line, more) ->
  s = line ++ more /\ exists body, line = body ++ nl /\ cut_line body = None.
Proof.
  revert line more. induction s as [|c s IH]; intros line more H; [discriminate H|].
  cbn [cut_line] in H. destruct (Ascii.eqb c LF) eqn:Ec.
  - injection H as <- <-. apply Ascii.eqb_eq in Ec. subst c.
    split; [reflexivity|]. exists EmptyString. split; reflexivity.
  - destruct (cut_line s) as [[l r]|]; [|discriminate H].
    injection H as <- <-. destruct (IH l r eq_refl) as (Hs & body & Hl & Hb).
    split; [cbn [append]; now rewrite <- Hs|].
    exists (String c body). split; [cbn [append]; now rewrite Hl|].
    cbn [cut_line]. now rewrite Ec, Hb.
Qed.

(** [ReadBytes] hands out the unread bytes from the front and keeps the
    final error. *)
Lemma ReadBytes_split (r r' : Reader) (got : string) (err : option error) :
  ReadBytes r = ((got, err), r') ->
  pending r = got ++ pending r' /\ at_end r' = at_end r
  /\ (pending r <> EmptyString -> got <> EmptyString).
Proof.
  unfold ReadBytes. intros H.
  destruct (cut_line (pending r)) as [[l m]|] eqn:Hcut.
  - injection H as <- _ <-. destruct (cut_line_split _ _ _ Hcut) as (Hs & body & Hl & _).
    cbn [pending at_end]. repeat split; [exact Hs|].
    intros _ ->. destruct body; discriminate Hl.
  - injection H as <- _ <-. cbn [pending at_end]. rewrite append_empty_r. auto.
Qed.

Lemma HasPrefix_split (s p : string) :
  HasPrefix s p = true -> s = p ++ TrimPrefix s p.
Proof.
  unfold TrimPrefix. intros H. rewrite H. unfold HasPrefix in H.
  revert s H. induction p as [|c p IH]; intros s H.
  - cbn [length append]. rewrite Nat.sub_0_r. clear H.
    induction s as [|d s IHs]; [reflexivity|]. cbn [length substring]. now rewrite <- IHs.
  - destruct s as [|d s]; [discriminate H|]. cbn [prefix] in H.
    destruct (ascii_dec c d) as [<-|]; [|discriminate H].
    cbn [length append substring Nat.sub]. now rewrite <- (IH s H).
Qed.

(** A line that was read ends with its line feed: after the prefix there
    is at least that byte. *)
Lemma ReadBytes_payload_nonempty (r r' : Reader) (line : string) :
  ReadBytes r = ((line, None), r') ->
  HasPrefix line "data: " = true ->
  Nat.eqb (length (TrimPrefix line "data: ")) 0 = false.
Proof.
  intros Hread Hpre. pose proof (HasPrefix_split _ _ Hpre) as Hline.
  destruct (TrimPrefix line "data: ") as [|c data]; [|reflexivity].
  exfalso. cbn [append] in Hline.
  unfold ReadBytes in Hread.
  destruct (cut_line (pending r)) as [[l m]|] eqn:Hcut; [|discriminate Hread].
  injection Hread as -> _.
  destruct (cut_line_split _ _ _ Hcut) as (_ & body & Hl & _).
  rewrite Hline in Hl.
  do 6 (destruct body as [|? body]; [discriminate Hl|]; injection Hl as <- Hl).
  destruct body; discriminate Hl.
Qed.

(** ** The stream adapters *)

Section AdapterFacts.

Context {openai_json : JSON openaiResponse}.
Context {anthropic_json : JSON anthropicResponse}.

Lemma openAIStream_Recv_line (s : openAIStream) (line0 : string) (r' : Reader) :
  ReadBytes (oa_reader s) = ((line0, None), r') ->
  openAIStream_Recv s
  = openAIStream_turn line0 r' (openAIStream_Recv (mkOpenAIStream r')).
Proof.
  intros H. rewrite openAIStream_Recv_equation_1.
  destruct (inspect (ReadBytes (oa_reader s))) as [[[l o] r] E].
  assert (E' := E). rewrite H in E'. injection E' as <- <- <-.
  reflexivity.
Qed.

Lemma openAIStream_Recv_error (s : openAIStream) (part : string) (err : error) (r' : Reader) :
  ReadBytes (oa_reader s) = ((part, Some err), r') ->
  openAIStream_Recv s
  = (fail (if is_EOF err then io_EOF else Wrapf "failed to read stream" err),
     mkOpenAIStream r').
Proof.
  intros H. rewrite openAIStream_Recv_equation_1.
  destruct (inspect (ReadBytes (oa_reader s))) as [[[l o] r] E].
  assert (E' := E). rewrite H in E'. injection E' as <- <- <-.
  simpl. destruct (is_EOF err); reflexivity.
Qed.

Lemma Recv_n_fixed {S : Type} `{CompletionStream S} (s : S) (x : result CompletionResponse) :
  Recv s = (x, s) -> forall n, Recv_n n s = (repeat x n, s).
Proof.
  intros Hs n. induction n as [|n IH]; [reflexivity|].
  cbn [Recv_n repeat]. rewrite Hs, IH. reflexivity.
Qed.

Lemma Recv_n_S {S : Type} `{CompletionStream S} (n : nat) (s : S) :
  fst (Recv_n (Datatypes.S n) s) = fst (Recv s) :: fst (Recv_n n (snd (Recv s))).
Proof.
  cbn [Recv_n]. destruct (Recv s) as [x s1]. cbn [fst snd].
  destruct (Recv_n n s1) as [xs s2]. reflexivity.
Qed.

(** Induction along the lines that one call of [openAIStream_Recv] reads. *)
Lemma openAIStream_Recv_cases
    (P : openAIStream -> result CompletionResponse * openAIStream -> Prop) :
  (forall s part err r',
      ReadBytes (oa_reader s) = ((part, Some err), r') ->
      P s (fail (if is_EOF err then io_EOF else Wrapf "failed to read stream" err),
           mkOpenAIStream r')) ->
  (forall s line r',
      ReadBytes (oa_reader s) = ((line, None), r') ->
      P (mkOpenAIStream r') (openAIStream_Recv (mkOpenAIStream r')) ->
      P s (openAIStream_turn line r' (openAIStream_Recv (mkOpenAIStream r')))) ->
  forall s, P s (openAIStream_Recv s).
Proof.
  intros Herr Hline s.
  remember (length (pending (oa_reader s))) as n eqn:Hn. revert s Hn.
  induction n as [n IH] using lt_wf_ind. intros s Hn.
  destruct (ReadBytes (oa_reader s)) as [[line [err|]] r'] eqn:Hread.
  - rewrite (openAIStream_Recv_error _ _ _ _ Hread). now apply (Herr s line).
  - rewrite (openAIStream_Recv_line _ _ _ Hread). apply Hline; [exact Hread|].
    apply (IH (length (pending r'))); [|reflexivity].
    subst n. exact (ReadBytes_shorter _ _ _ Hread).
Qed.

(** One turn of the loop either leaves the result to the turns that follow
    or stops after the line with a fragment or with one of three errors. *)
Lemma openAIStream_turn_cases (line : string) (r' : Reader)
    (next : result CompletionResponse * openAIStream) :
  openAIStream_turn line r' next = next
  \/ exists res,
      openAIStream_turn line r' next = (res, mkOpenAIStream r')
      /\ ((exists r, res = ok r)
          \/ res = fail io_EOF
          \/ (exists m, res = fail (Wrapf "failed to decode stream response" (JSONError m)))
          \/ (exists m, res = fail (errors_New ("OpenAI API error: " ++ m)))).
Proof.
  unfold openAIStream_turn. cbv zeta.
  destruct (Nat.eqb _ 0); [now left|].
  destruct (negb _); [now left|].
  destruct (String.eqb _ "[DONE]"); [right; eexists; split; [reflexivity|]; auto|].
  destruct (json_Unmarshal _) as [msg|resp].
  { right; eexists; split; [reflexivity|]. right; right; left. now exists msg. }
  destruct (or_Error resp) as [m|].
  { right; eexists; split; [reflexivity|]. right; right; right. now exists m. }
  destruct (or_Choices resp) as [|c cs]; [now left|].
  right; eexists; split; [reflexivity|]. left. eexists; reflexivity.
Qed.

(** With no byte left and a body that ended cleanly, [Recv] returns
    [io.EOF] and changes nothing. *)
Lemma openAIStream_Recv_exhausted (s : openAIStream) :
  pending (oa_reader s) = EmptyString -> at_end (oa_reader s) = io_EOF ->
  openAIStream_Recv s = (fail io_EOF, s).
Proof.
  intros Hp He. destruct s as [r]. cbn [oa_reader] in *.
  rewrite (openAIStream_Recv_error (mkOpenAIStream r) _ _ _ (ReadBytes_at_end r Hp)).
  cbn [oa_reader]. rewrite He. reflexivity.
Qed.

Lemma anthropicStream_Recv_exhausted (s : anthropicStream) :
  pending (an_reader s) = EmptyString -> at_end (an_reader s) = io_EOF ->
  anthropicStream_Recv s = (fail io_EOF, s).
Proof.
  intros Hp He. destruct s as [r]. cbn [an_reader] in *.
  unfold anthropicStream_Recv. cbn [an_reader].
  rewrite (ReadBytes_at_end r Hp), He. reflexivity.
Qed.

(** The Anthropic adapter returns [io.EOF] only from the reader, when the
    bytes are used up. *)
Lemma anthropicStream_Recv_EOF (s s' : anthropicStream) :
  anthropicStream_Recv s = (fail io_EOF, s') ->
  pending (an_reader s') = EmptyString /\ at_end (an_reader s') = io_EOF.
Proof.
  unfold anthropicStream_Recv.
  destruct (ReadBytes (an_reader s)) as [[line [err|]] r'] eqn:Hread.
  - intros H. injection H as -> <-. cbn [an_reader].
    destruct (ReadBytes_error _ _ _ _ Hread) as (He & Hp & Ha).
    split; [exact Hp | congruence].
  - destruct (negb (HasPrefix line "data: ")); [discriminate|].
    destruct (Nat.eqb _ 0); [discriminate|].
    destruct (json_Unmarshal _) as [msg|resp]; [discriminate|].
    destruct (ar_Error resp); [discriminate|].
    destruct (ar_Content resp); discriminate.
Qed.

Lemma HasPrefix_data_nonempty (line : string) :
  HasPrefix line "data: " = true -> Nat.eqb (length line) 0 = false.
Proof. destruct line; [discriminate|reflexivity]. Qed.

(** The OpenAI half of C2: a line whose payload trims to the sentinel ends
    the stream. *)
Lemma openAIStream_Recv_DONE (s : openAIStream) (line : string) (r' : Reader) :
  ReadBytes (oa_reader s) = ((line, None), r') ->
  HasPrefix (TrimSpace line) "data: " = true ->
  TrimSpace (TrimPrefix (TrimSpace line) "data: ") = "[DONE]" ->
  openAIStream_Recv s = (fail io_EOF, mkOpenAIStream r').
Proof.
  intros Hread Hpre Hdone. rewrite (openAIStream_Recv_line _ _ _ Hread).
  unfold openAIStream_turn. cbv zeta.
  rewrite (HasPrefix_data_nonempty _ Hpre), Hpre, Hdone. reflexivity.
Qed.

(** The OpenAI half of C3: a line of white space only is passed over, and so
    is a line that does not start with the prefix. *)
Lemma openAIStream_Recv_blank (s : openAIStream) (line : string) (r' : Reader) :
  ReadBytes (oa_reader s) = ((line, None), r') ->
  TrimSpace line = EmptyString ->
  openAIStream_Recv s = openAIStream_Recv (mkOpenAIStream r').
Proof.
  intros Hread Hblank. rewrite (openAIStream_Recv_line _ _ _ Hread).
  unfold openAIStream_turn. cbv zeta. rewrite Hblank. reflexivity.
Qed.

(** The separator of two events, a line feed after any white space, costs
    one turn of the loop. *)
Lemma openAIStream_skips_blank_line (line more : string) (e : error) :
  cut_line line = None ->
  TrimSpace (line ++ nl) = EmptyString ->
  openAIStream_Recv (mkOpenAIStream (mkReader (line ++ nl ++ more) e))
  = openAIStream_Recv (mkOpenAIStream (mkReader more e)).
Proof.
  intros Hline Hblank.
  apply (openAIStream_Recv_blank _ (line ++ nl)); [|exact Hblank].
  cbn [oa_reader]. apply ReadBytes_line. exact Hline.
Qed.

Lemma openAIStream_Recv_other (s : openAIStream) (line : string) (r' : Reader) :
  ReadBytes (oa_reader s) = ((line, None), r') ->
  HasPrefix (TrimSpace line) "data: " = false ->
  openAIStream_Recv s = openAIStream_Recv (mkOpenAIStream r').
Proof.
  intros Hread Hpre. rewrite (openAIStream_Recv_line _ _ _ Hread).
  unfold openAIStream_turn. cbv zeta. rewrite Hpre.
  destruct (Nat.eqb _ 0); reflexivity.
Qed.

(** C6, as amended.  Of the events that decode to a response without an
    error object: an OpenAI event without choices is not returned, [Recv]
    goes on with the next line; an Anthropic event without content makes
    [Recv] return nil twice, no response and no error, so the caller is
    handed no fragment.  An event with an error object is an error of
    either adapter, with or without choices or content. *)
Theorem empty_event_skipped_or_nil :
  (forall (s : openAIStream) (line : string) (r' : Reader) (resp : openaiResponse),
      ReadBytes (oa_reader s) = ((line, None), r') ->
      HasPrefix (TrimSpace line) "data: " = true ->
      TrimSpace (TrimPrefix (TrimSpace line) "data: ") <> "[DONE]" ->
      json_Unmarshal (TrimPrefix (TrimSpace line) "data: ") = inr resp ->
      (or_Error resp = None -> or_Choices resp = [] ->
       Recv s = Recv (mkOpenAIStream r'))
      /\ (forall m, or_Error resp = Some m ->
          Recv s = (fail (errors_New ("OpenAI API error: " ++ m)), mkOpenAIStream r')))
  /\ (forall (s : anthropicStream) (line : string) (r' : Reader) (resp : anthropicResponse),
        ReadBytes (an_reader s) = ((line, None), r') ->
        HasPrefix line "data: " = true ->
        json_Unmarshal (TrimPrefix line "data: ") = inr resp ->
        (ar_Error resp = None -> ar_Content resp = [] ->
         Recv s = (nil_nil, mkAnthropicStream r')
         /\ forall fragment, fst (Recv s) <> ok fragment)
        /\ (forall m, ar_Error resp = Some m ->
            Recv s = (fail (errors_New ("anthropic API error: " ++ m)),
                      mkAnthropicStream r'))).
Proof.
  split.
  - intros s line r' resp Hread Hpre Hdone Hjson.
    cbn [Recv openAIStream_CompletionStream].
    rewrite (openAIStream_Recv_line _ _ _ Hread).
    unfold openAIStream_turn. cbv zeta.
    rewrite (HasPrefix_data_nonempty _ Hpre), Hpre, Hjson.
    apply String.eqb_neq in Hdone. rewrite Hdone. cbn [negb].
    split.
    + intros Herr Hch. rewrite Herr, Hch. reflexivity.
    + intros m Herr. rewrite Herr. reflexivity.
  - intros s line r' resp Hread Hpre Hjson.
    cbn [Recv anthropicStream_CompletionStream].
    unfold anthropicStream_Recv. rewrite Hread, Hpre. cbv zeta. cbn [negb].
    rewrite (ReadBytes_payload_nonempty _ _ _ Hread Hpre), Hjson. split.
    + intros Herr Hc. rewrite Herr, Hc. split; [reflexivity|].
      intros fragment. discriminate.
    + intros m Herr. rewrite Herr. reflexivity.
Qed.

(** A call of the OpenAI [Recv] leaves the final error of the body as it
    was. *)
Lemma openAIStream_Recv_at_end (s : openAIStream) :
  at_end (oa_reader (snd (openAIStream_Recv s))) = at_end (oa_reader s).
Proof.
  apply (openAIStream_Recv_cases
           (fun s res => at_end (oa_reader (snd res)) = at_end (oa_reader s))).
  - intros s0 part err r' Hread. cbn [snd oa_reader].
    exact (proj1 (proj2 (ReadBytes_split _ _ _ _ Hread))).
  - intros s0 line r' Hread IH.
    pose proof (proj1 (proj2 (ReadBytes_split _ _ _ _ Hread))) as Ha.
    destruct (openAIStream_turn_cases line r' (openAIStream_Recv (mkOpenAIStream r')))
      as [-> | (res & -> & _)].
    + cbn [oa_reader] in IH. congruence.
    + cbn [snd oa_reader]. exact Ha.
Qed.

(** Complete lines without the prefix and then an unfinished line, in a
    body that ends cleanly: [Recv] reads them all and returns [io.EOF]. *)
Lemma openAIStream_Recv_no_event (lines : list string) (rest : string) :
  Forall (fun l => cut_line l = None
                   /\ HasPrefix (TrimSpace (l ++ nl)) "data: " = false) lines ->
  cut_line rest = None ->
  openAIStream_Recv
    (mkOpenAIStream (mkReader (fold_right (fun l acc => l ++ nl ++ acc) rest lines) io_EOF))
  = (fail io_EOF, mkOpenAIStream (mkReader EmptyString io_EOF)).
Proof.
  intros Hlines Hrest. induction Hlines as [|l lines [Hcut Hpre] _ IH].
  - cbn [fold_right].
    rewrite (openAIStream_Recv_error _ rest io_EOF (mkReader EmptyString io_EOF));
      [reflexivity|].
    unfold ReadBytes. cbn [oa_reader pending at_end]. now rewrite Hrest.
  - cbn [fold_right]. rewrite <- IH.
    apply (openAIStream_Recv_other _ (l ++ nl)); [|exact Hpre].
    cbn [oa_reader]. apply ReadBytes_line. exact Hcut.
Qed.

(** C1, as amended.  End of stream is final for the Anthropic adapter.  For
    the OpenAI adapter it is final when the body ends cleanly and the
    [Recv] that returned it left no event unread: what is unread are
    complete lines that do not start with the prefix once trimmed (the
    blank line after the [DONE] line, comments, other fields) and then at
    most a line that no line feed ends.  (The OpenAI adapter keeps no record
    of a [DONE] line: the next [Recv] reads on from the byte after it.) *)
Theorem Recv_EOF_final :
  EOF_is_final anthropicStream
  /\ (forall (s s' : openAIStream) (lines : list string) (rest : string),
        Recv s = (fail io_EOF, s') ->
        at_end (oa_reader s) = io_EOF ->
        pending (oa_reader s') = fold_right (fun l acc => l ++ nl ++ acc) rest lines ->
        Forall (fun l => cut_line l = None
                         /\ HasPrefix (TrimSpace (l ++ nl)) "data: " = false) lines ->
        cut_line rest = None ->
        forall n, fst (Recv_n n s') = repeat (fail io_EOF) n).
Proof.
  split.
  - intros s s' H n. destruct (anthropicStream_Recv_EOF _ _ H) as [Hp He].
    rewrite (Recv_n_fixed s' (fail io_EOF)); [reflexivity|].
    apply anthropicStream_Recv_exhausted; assumption.
  - intros s s' lines rest Hrecv He Hp Hlines Hrest n.
    cbn [Recv openAIStream_CompletionStream] in Hrecv.
    assert (at_end (oa_reader s') = io_EOF) as He'.
    { rewrite <- He, <- (openAIStream_Recv_at_end s), Hrecv. reflexivity. }
    assert (Recv s' = (fail io_EOF, mkOpenAIStream (mkReader EmptyString io_EOF))) as Hnext.
    { cbn [Recv openAIStream_CompletionStream]. destruct s' as [[p e]].
      cbn [oa_reader pending at_end] in Hp, He'. subst p e.
      apply openAIStream_Recv_no_event; assumption. }
    destruct n as [|n]; [reflexivity|].
    rewrite Recv_n_S, Hnext. cbn [fst snd repeat]. f_equal.
    rewrite (Recv_n_fixed _ (fail io_EOF)); [reflexivity|].
    apply openAIStream_Recv_exhausted; reflexivity.
Qed.

End AdapterFacts.

Import GoJSON Samples.

(** C1 fails for the OpenAI adapter: an event sent after the [DONE] line is
    returned by the [Recv] that follows the end of stream. *)
Lemma openAIStream_reads_on_after_DONE :
  fst (Recv_n 2 (openai_stream
                   ("data: [DONE]" ++ nl
                    ++ dq "data: {'choices':[{'delta':{'content':'late'}}]}" ++ nl)))
  = [fail io_EOF; text "late" ""]
  /\ ~ EOF_is_final openAIStream.
Proof.
  split; [vm_compute; reflexivity|].
  intros H.
  specialize (H (openai_stream
                   ("data: [DONE]" ++ nl
                    ++ dq "data: {'choices':[{'delta':{'content':'late'}}]}" ++ nl))
                (openai_stream (dq "data: {'choices':[{'delta':{'content':'late'}}]}" ++ nl))
                ltac:(vm_compute; reflexivity) 1%nat).
  vm_compute in H. discriminate H.
Qed.

(** The stream of the repository's test once its [DONE] line is read: the
    blank line that ends the event is still unread. *)
Lemma Recv_EOF_final_witness :
  fst (Recv_n 3 (openai_stream nl)) = repeat (fail io_EOF) 3.
Proof.
  apply (proj2 Recv_EOF_final
           (openai_stream ("data: [DONE]" ++ nl ++ nl)) (openai_stream nl)
           [EmptyString] EmptyString).
  - reflexivity.
  - reflexivity.
  - reflexivity.
  - constructor; [split; reflexivity | constructor].
  - reflexivity.
Defined.


(** The repository's test stream through the OpenAI adapter: the two
    fragments, then the end of stream, again and again. *)
Lemma openai_events_received :
  fst (Recv_n 5 (openai_stream openai_events))
  = [text "Hello" ""; text " World" ""; fail io_EOF; fail io_EOF; fail io_EOF].
Proof. vm_compute. reflexivity. Qed.

(** C2 at the Anthropic adapter, which has no sentinel: the [DONE] line goes
    to the JSON decoder, and whatever the decoder makes of it, the result is
    not the end of stream. *)
Theorem anthropicStream_DONE_is_no_EOF :
  (exists msg,
      fst (Recv_n 3 (anthropic_stream anthropic_events_dense))
      = [text "Hello" "claude-3-opus-20240229";
         text " World" "claude-3-opus-20240229";
         fail (JSONError msg)])
  /\ (forall (J : JSON anthropicResponse) (more : string) (e : error),
        fst (@anthropicStream_Recv J
               (mkAnthropicStream (mkReader ("data: [DONE]" ++ nl ++ more) e)))
        <> fail io_EOF).
Proof.
  split.
  - eexists. vm_compute. reflexivity.
  - intros J more e. unfold anthropicStream_Recv, ReadBytes. simpl.
    destruct (json_Unmarshal _) as [msg|resp]; [discriminate|].
    destruct (ar_Error resp); [discriminate|].
    destruct (ar_Content resp); discriminate.
Qed.

(** C3 at the Anthropic adapter: the blank line that separates two events
    is answered with an error, for every decoder and whatever follows; so
    the second [Recv] on the repository's test stream fails. *)
Theorem anthropicStream_blank_line_is_error :
  (forall (J : JSON anthropicResponse) (more : string) (e : error),
      @anthropicStream_Recv J (mkAnthropicStream (mkReader (nl ++ more) e))
      = (fail (errors_New "invalid SSE format"), mkAnthropicStream (mkReader more e)))
  /\ fst (Recv_n 2 (anthropic_stream anthropic_events))
     = [text "Hello" "claude-3-opus-20240229"; fail (errors_New "invalid SSE format")].
Proof.
  split.
  - intros J more e. reflexivity.
  - vm_compute. reflexivity.
Qed.

(** C6 fails as it stands.  The Anthropic event with an empty content list
    hands the caller no fragment: [Recv] returns a nil response with a nil
    error.  And an OpenAI event without choices is not passed over when it
    carries an error object: the call ends with that error, and the event
    after it is left unread. *)
Lemma empty_content_is_no_fragment :
  Recv (anthropic_stream (dq "data: {'content':[]}" ++ nl))
  = ((None, None), anthropic_stream EmptyString)
  /\ Recv (openai_stream (dq "data: {'choices':[],'error':{'message':'overloaded'}}" ++ nl
                          ++ dq "data: {'choices':[{'delta':{'content':'Hello'}}]}" ++ nl))
     = (fail (errors_New "OpenAI API error: overloaded"),
        openai_stream (dq "data: {'choices':[{'delta':{'content':'Hello'}}]}" ++ nl)).
Proof. split; vm_compute; reflexivity. Qed.

(** An event without choices before a fragment, and an event without
    content. *)
Lemma empty_event_skipped_or_nil_witness :
  Recv (openai_stream (dq "data: {'choices':[]}" ++ nl
                       ++ dq "data: {'choices':[{'delta':{'content':'Hello'}}]}" ++ nl))
  = Recv (openai_stream (dq "data: {'choices':[{'delta':{'content':'Hello'}}]}" ++ nl))
  /\ Recv (anthropic_stream (dq "data: {'content':[]}" ++ nl))
     = (nil_nil, anthropic_stream EmptyString).
Proof.
  split.
  - apply (proj1 (proj1 empty_event_skipped_or_nil
                    (openai_stream (dq "data: {'choices':[]}" ++ nl
                                    ++ dq "data: {'choices':[{'delta':{'content':'Hello'}}]}"
                                    ++ nl))
                    (dq "data: {'choices':[]}" ++ nl)
                    (mkReader (dq "data: {'choices':[{'delta':{'content':'Hello'}}]}" ++ nl)
                       io_EOF)
                    openaiResponse0
                    ltac:(reflexivity) ltac:(reflexivity) ltac:(vm_compute; discriminate)
                    ltac:(reflexivity)));
      reflexivity.
  - apply (proj1 (proj2 empty_event_skipped_or_nil
                    (anthropic_stream (dq "data: {'content':[]}" ++ nl))
                    (dq "data: {'content':[]}" ++ nl)
                    (mkReader EmptyString io_EOF)
                    anthropicResponse0
                    ltac:(reflexivity) ltac:(reflexivity) ltac:(reflexivity))
             ltac:(reflexivity) ltac:(reflexivity)).
Defined.

(** ** The retry loop *)

Section ClientFacts.

Context {openai_json : JSON openaiResponse}.
Context {anthropic_json : JSON anthropicResponse}.

Variable script : nat -> Exchange.
Variable ctx_done : nat -> bool.
Variable ctx_Err : string.
Variable rc : RetryConfig.

Lemma started_rounds (k : nat) : started (rounds rc k) = k.
Proof. induction k as [|k IH]; [reflexivity|]. cbn [rounds round started]. now rewrite IH. Qed.

Lemma shouldRetry_HTTPError (code : Z) (msg : string) :
  shouldRetry rc (HTTPError code msg) = true <-> In code (RetryableStatusCodes rc).
Proof.
  unfold shouldRetry. cbn [errors_As_HTTPError]. rewrite existsb_exists. split.
  - intros (c & Hin & Heq). apply Z.eqb_eq in Heq. now subst.
  - intros Hin. exists code. split; [assumption | apply Z.eqb_refl].
Qed.

(** An error of [complete] that [shouldRetry] accepts is an [HTTPError]
    itself: no other error of an attempt wraps one. *)
Lemma complete_error_retried (x : Exchange) (e : error) :
  OpenAIClient_complete_on x = fail e ->
  shouldRetry rc e = true ->
  exists code msg, e = HTTPError code msg /\ In code (RetryableStatusCodes rc).
Proof.
  intros Hx Hr. destruct x as [m|m|m|resp]; cbn [OpenAIClient_complete_on] in Hx.
  1-3: injection Hx as <-; discriminate Hr.
  destruct (negb (StatusCode resp =? http_StatusOK)%Z).
  - destruct (io_ReadAll (RespBody resp)) as [[body o] b'].
    injection Hx as <-. exists (StatusCode resp), body. split; [reflexivity|].
    now apply shouldRetry_HTTPError in Hr.
  - destruct (json_Decode (RespBody resp)) as [f|r].
    + injection Hx as <-. destruct f; discriminate Hr.
    + destruct (or_Error r).
      * injection Hx as <-. discriminate Hr.
      * destruct (or_Choices r); [injection Hx as <-; discriminate Hr | discriminate Hx].
Qed.

Lemma Complete_loop_round (n a : nat) (last : option error) (e : error) (w : World) :
  started w = a ->
  (1 <= a -> ctx_done a = false)%nat ->
  OpenAIClient_complete_on (script a) = fail e ->
  shouldRetry rc e = true ->
  Complete_loop script ctx_done ctx_Err rc (S n) (Z.of_nat a) last w
  = Complete_loop script ctx_done ctx_Err rc n (Z.of_nat (S a)) (Some e) (round rc w).
Proof.
  intros Hw Hctx Hx Hr. cbn [Complete_loop].
  unfold select_Done_After, OpenAIClient_complete, exchange, round.
  destruct a as [|a'].
  - cbn [Z.of_nat Z.gtb Z.compare]. rewrite Hw, Hx. cbn [fail Nat.eqb].
    rewrite Hr. reflexivity.
  - replace (Z.of_nat (S a') >? 0)%Z with true by (symmetry; apply Z.gtb_lt; lia).
    rewrite Hw, (Hctx ltac:(lia)). cbn [started]. rewrite Hx. cbn [fail Nat.eqb].
    rewrite Hr. cbn [negb]. f_equal. lia.
Qed.

(** [k] retryable failures in a row, no wait cut short: the loop is at
    attempt [k] with the last error at hand. *)
Lemma Complete_loop_rounds (k n : nat) :
  (forall j, j < k -> retryable_at script rc j)%nat ->
  (forall j, 1 <= j < k -> ctx_done j = false)%nat ->
  Complete_loop script ctx_done ctx_Err rc (k + n) 0%Z None World0
  = Complete_loop script ctx_done ctx_Err rc n (Z.of_nat k) (last_error script k) (rounds rc k).
Proof.
  revert n. induction k as [|k IH]; intros n Hfail Hctx; [reflexivity|].
  replace (S k + n)%nat with (k + S n)%nat by lia.
  rewrite IH; [|intros; apply Hfail; lia | intros; apply Hctx; lia].
  destruct (Hfail k ltac:(lia)) as (code & msg & Hx & Hin).
  cbn [last_error]. rewrite Hx. cbn [snd fail].
  apply Complete_loop_round.
  - apply started_rounds.
  - intros H1. apply Hctx. lia.
  - exact Hx.
  - now apply shouldRetry_HTTPError.
Qed.


(** C7.  When the first attempt fails with an error that is not an
    [HTTPError] with a retryable status, [Complete] returns that error after
    this one request, without any wait; and the only errors of an attempt
    that are retried come from a response whose status is not 200. *)
Theorem Complete_fatal_error :
  (0 <= MaxRetries rc)%Z ->
  (forall e : error,
      OpenAIClient_complete_on (script 0) = fail e ->
      (forall code msg, e = HTTPError code msg -> ~ In code (RetryableStatusCodes rc)) ->
      OpenAIClient_Complete script ctx_done ctx_Err rc World0
      = (fail e, mkWorld 1 [Requested 0]))
  /\ (forall (x : Exchange) (e : error),
        OpenAIClient_complete_on x = fail e ->
        (forall resp, x = DoReturns resp -> StatusCode resp = http_StatusOK) ->
        shouldRetry rc e = false).
Proof.
  intros Hmax. split.
  - intros e Hx Hfatal. unfold OpenAIClient_Complete.
    replace (Z.to_nat (MaxRetries rc + 1)) with (S (Z.to_nat (MaxRetries rc))) by lia.
    cbn [Complete_loop Z.gtb Z.compare].
    unfold OpenAIClient_complete, exchange. cbn [started World0 history].
    rewrite Hx. cbn [fail].
    destruct (shouldRetry rc e) eqn:Hr; [|reflexivity].
    destruct (complete_error_retried _ _ Hx Hr) as (code & msg & -> & Hin).
    exfalso. exact (Hfatal code msg eq_refl Hin).
  - intros x e Hx H200.
    destruct (shouldRetry rc e) eqn:Hr; [|reflexivity]. exfalso.
    destruct x as [m|m|m|resp]; cbn [OpenAIClient_complete_on] in Hx.
    1-3: injection Hx as <-; discriminate Hr.
    rewrite (H200 resp eq_refl), Z.eqb_refl in Hx. cbn [negb] in Hx.
    destruct (json_Decode (RespBody resp)) as [f|r].
    + injection Hx as <-. destruct f; discriminate Hr.
    + destruct (or_Error r).
      * injection Hx as <-. discriminate Hr.
      * destruct (or_Choices r); [injection Hx as <-; discriminate Hr | discriminate Hx].
Qed.

(** C8.  When the context is done in the wait before attempt [k], after
    [k] retryable failures, [Complete] returns the context's error; the
    last thing it did is that wait, and request [k] was not made. *)
Theorem Complete_cancelled_in_backoff (k : nat) :
  (1 <= k <= Z.to_nat (MaxRetries rc))%nat ->
  (forall j, j < k -> retryable_at script rc j)%nat ->
  (forall j, 1 <= j < k -> ctx_done j = false)%nat ->
  ctx_done k = true ->
  OpenAIClient_Complete script ctx_done ctx_Err rc World0
  = (fail (CtxError ctx_Err),
     mkWorld k (Interrupted (getRetryDelay rc (Z.of_nat k)) :: history (rounds rc k))).
Proof.
  intros Hk Hfail Hctx Hdone. unfold OpenAIClient_Complete.
  replace (Z.to_nat (MaxRetries rc + 1))
    with (k + S (Z.to_nat (MaxRetries rc) - k))%nat by lia.
  rewrite Complete_loop_rounds; [|exact Hfail | exact Hctx].
  cbn [Complete_loop]. unfold select_Done_After.
  replace (Z.of_nat k >? 0)%Z with true by (symmetry; apply Z.gtb_lt; lia).
  rewrite started_rounds, Hdone. reflexivity.
Qed.

(** C10.  [AnthropicClient.Complete] makes one attempt and waits for
    nothing; no error it returns is or wraps an [HTTPError]; when
    [httpClient.Do] returns a response, what [Complete] returns is read off
    the decoded body alone: the error object if there is one, else the
    error of an empty content list, else the first content block, and the
    error of the decoder when the body does not decode; so two calls that
    meet responses with the same body return the same, whatever the two
    statuses. *)
Theorem AnthropicClient_Complete_one_attempt :
  (forall w : World,
      let r := AnthropicClient_Complete script w in
      snd r = mkWorld (S (started w)) (Requested (started w) :: history w)
      /\ match snd (fst r) with
         | Some e => errors_As_HTTPError e = None
         | None => True
         end)
  /\ (forall (w : World) (resp : Response),
        script (started w) = DoReturns resp ->
        fst (AnthropicClient_Complete script w)
        = match json_Decode (RespBody resp) with
          | inl f => fail (error_of_decode f)
          | inr r =>
              match ar_Error r, ar_Content r with
              | Some m, _ => fail (errors_New ("anthropic API error: " ++ m))
              | None, [] => fail (errors_New "no content in response")
              | None, b :: _ =>
                  ok (mkCompletionResponse (cb_Text b) (ar_Model r) (ar_StopReason r) [])
              end
          end)
  /\ (forall (script' : nat -> Exchange) (w w' : World) (resp resp' : Response),
        script (started w) = DoReturns resp ->
        script' (started w') = DoReturns resp' ->
        RespBody resp = RespBody resp' ->
        fst (AnthropicClient_Complete script w)
        = fst (AnthropicClient_Complete script' w')).
Proof.
  split; [|split].
  - intros w. unfold AnthropicClient_Complete, exchange. cbn [snd fst].
    split; [reflexivity|].
    destruct (script (started w)) as [m|m|m|resp]; cbn [AnthropicClient_Complete_on fail snd];
      try reflexivity.
    destruct (json_Decode (RespBody resp)) as [f|r]; [destruct f; reflexivity|].
    destruct (ar_Error r); [reflexivity|].
    destruct (ar_Content r); reflexivity.
  - intros w resp Hresp. unfold AnthropicClient_Complete, exchange. cbn [fst].
    rewrite Hresp. cbn [AnthropicClient_Complete_on].
    destruct (json_Decode (RespBody resp)) as [f|r]; [reflexivity|].
    destruct (ar_Error r); [reflexivity|].
    destruct (ar_Content r); reflexivity.
  - intros script' w w' resp resp' Hresp Hresp' Hbody.
    unfold AnthropicClient_Complete, exchange. cbn [fst].
    rewrite Hresp, Hresp'. cbn [AnthropicClient_Complete_on].
    rewrite Hbody. reflexivity.
Qed.

End ClientFacts.

(** ** The delay between attempts *)

Lemma int64_wrap_small (z : Z) :
  (- 2 ^ 63 <= z < 2 ^ 63)%Z -> int64_wrap z = z.
Proof. intros H. unfold int64_wrap. rewrite Z.mod_small; lia. Qed.

(** Where nothing overflows, the delay before attempt [n] is the formula of
    C9. *)
Lemma getRetryDelay_in_range (rc : RetryConfig) (n : Z) :
  (1 <= n <= 63)%Z ->
  (- 2 ^ 63 <= InitialDelay rc * 2 ^ (n - 1) < 2 ^ 63)%Z ->
  getRetryDelay rc n = Z.min (InitialDelay rc * 2 ^ (n - 1)) (MaxDelay rc).
Proof.
  intros Hn Hrange. unfold getRetryDelay, int64_mul, int64_shl, uint64_of.
  rewrite (Z.mod_small (n - 1)) by lia.
  replace (n - 1 <? 64)%Z with true by (symmetry; apply Z.ltb_lt; lia).
  rewrite Z.shiftl_1_l.
  assert (0 < 2 ^ (n - 1) <= 2 ^ 62)%Z as Hpow.
  { split; [apply Z.pow_pos_nonneg; lia | apply Z.pow_le_mono_r; lia]. }
  rewrite (int64_wrap_small (2 ^ (n - 1))) by lia.
  rewrite (int64_wrap_small _ Hrange).
  destruct (Z.gtb_spec (InitialDelay rc * 2 ^ (n - 1)) (MaxDelay rc)); lia.
Qed.

(** The delays of the default policy before attempts 1, 2 and 3. *)
Lemma getRetryDelay_defaults :
  map (getRetryDelay (NewOpenAIClient_RetryConfig None)) [1; 2; 3]%Z
  = [time_Second; 2 * time_Second; 4 * time_Second]%Z.
Proof. reflexivity. Qed.

(** C9 at attempt 35 of the default delays: the product leaves [int64], the
    delay is negative, and the formula gives five seconds. *)
Theorem getRetryDelay_overflows :
  getRetryDelay (NewOpenAIClient_RetryConfig None) 35 = (-1266874889709551616)%Z
  /\ Z.min (InitialDelay (NewOpenAIClient_RetryConfig None) * 2 ^ (35 - 1))
           (MaxDelay (NewOpenAIClient_RetryConfig None))
     = (5 * time_Second)%Z.
Proof. split; vm_compute; reflexivity. Qed.

(** ** Opening a stream *)

(** C4 at a response with status 401.  The Anthropic client returns a
    stream over the body and leaves the body open.  The OpenAI client
    returns the [HTTPError] and no stream, and the body is closed; it is
    closed before it is read, so the bytes stay unread and the message is
    empty, where [complete] reads the body into the message. *)
Theorem CompleteStream_status_401 :
  forall (bytes : string) (tl : error) (w : World),
    let resp := mkResponse 401 (mkBody bytes tl false) in
    let w' := mkWorld (S (started w)) (Requested (started w) :: history w) in
    AnthropicClient_CompleteStream (fun _ => DoReturns resp) w
    = ((ok (mkAnthropicStream (mkReader bytes tl)), Some (mkBody bytes tl false)), w')
    /\ OpenAIClient_CompleteStream (fun _ => DoReturns resp) w
       = ((fail (HTTPError 401 EmptyString), Some (mkBody bytes tl true)), w')
    /\ (forall J : JSON openaiResponse,
          @OpenAIClient_complete_on J (DoReturns resp) = fail (HTTPError 401 bytes)).
Proof. intros bytes tl w. repeat split. Qed.

(** ** Runs of the retry loop *)

Import RetryRuns.


(** Status 401 is not retryable under the default policy: one request. *)
Lemma Complete_fatal_error_witness :
  OpenAIClient_Complete (fun _ => unauthorized) never "" (NewOpenAIClient_RetryConfig None) World0
  = (fail (HTTPError 401 (dq "{'error':{'message':'Invalid API key'}}")),
     mkWorld 1 [Requested 0]).
Proof.
  apply (proj1 (Complete_fatal_error (fun _ => unauthorized) never ""
                  (NewOpenAIClient_RetryConfig None) ltac:(discriminate))).
  - reflexivity.
  - intros code msg H. injection H as <- _.
    intros [H|[H|[H|[H|[]]]]]; discriminate H.
Defined.

(** The context is done during the second wait: two requests, no third. *)
Lemma Complete_cancelled_in_backoff_witness :
  OpenAIClient_Complete (fun _ => too_many_requests) (Nat.eqb 2) "context canceled"
    test_policy World0
  = (fail (CtxError "context canceled"),
     mkWorld 2 [Interrupted 20000000; Requested 1; Slept 10000000; Requested 0]).
Proof.
  apply (Complete_cancelled_in_backoff (fun _ => too_many_requests) (Nat.eqb 2)
           "context canceled" test_policy 2).
  - split; apply Nat.leb_le; reflexivity.
  - intros j _. exists 429%Z, EmptyString. split; [reflexivity | left; reflexivity].
  - intros j [H1 H2]. destruct j as [|[|j]]; [reflexivity .. |].
    exfalso. apply Nat.ltb_lt in H2. discriminate H2.
  - reflexivity.
Defined.

(** A reply with status 500 and a well-formed body is a success for the
    Anthropic client. *)
Lemma AnthropicClient_Complete_status_500 :
  AnthropicClient_Complete
    (fun _ => DoReturns
                (mkResponse 500
                   (mkBody (dq "{'content':[{'type':'text','text':'Test response'}],"
                            ++ dq "'model':'claude-3-opus-20240229','stop_reason':'stop'}")
                      io_EOF false)))
    World0
  = (ok (mkCompletionResponse "Test response" "claude-3-opus-20240229" "stop" []),
     mkWorld 1 [Requested 0]).
Proof. vm_compute. reflexivity. Qed.


(** * Further properties *)

(** ** The streams, call by call *)

Section StreamFacts.

Context {openai_json : JSON openaiResponse}.
Context {anthropic_json : JSON anthropicResponse}.

Lemma openAIStream_Recv_ok_or_fail (s : openAIStream) :
  (exists r, fst (openAIStream_Recv s) = ok r) \/ (exists e, fst (openAIStream_Recv s) = fail e).
Proof.
  apply (openAIStream_Recv_cases
           (fun _ res => (exists r, fst res = ok r) \/ (exists e, fst res = fail e))).
  - intros s0 part err r' _. right. eexists; reflexivity.
  - intros s0 line r' _ IH.
    destruct (openAIStream_turn_cases line r' (openAIStream_Recv (mkOpenAIStream r')))
      as [-> | (res & -> & [(r & ->) | [-> | [(m & ->) | (m & ->)]]])];
      [exact IH | left | right ..]; eexists; reflexivity.
Qed.

(** X1.  Every call of the OpenAI [Recv] returns a response without an error, or
    no response with one of four errors: [io.EOF], the wrapped error of a
    read, the wrapped error of the decoder, or the text of an error object.
    It never returns nil twice. *)
Theorem openAIStream_Recv_outcomes (s : openAIStream) :
  (exists r, fst (Recv s) = ok r)
  \/ fst (Recv s) = fail io_EOF
  \/ (exists e, is_EOF e = false /\ fst (Recv s) = fail (Wrapf "failed to read stream" e))
  \/ (exists m, fst (Recv s) = fail (Wrapf "failed to decode stream response" (JSONError m)))
  \/ (exists m, fst (Recv s) = fail (errors_New ("OpenAI API error: " ++ m))).
Proof.
  cbn [Recv openAIStream_CompletionStream].
  apply (openAIStream_Recv_cases
           (fun _ res =>
              (exists r, fst res = ok r)
              \/ fst res = fail io_EOF
              \/ (exists e, is_EOF e = false
                            /\ fst res = fail (Wrapf "failed to read stream" e))
              \/ (exists m, fst res
                            = fail (Wrapf "failed to decode stream response" (JSONError m)))
              \/ (exists m, fst res = fail (errors_New ("OpenAI API error: " ++ m))))).
  - intros s0 part err r' _. destruct (is_EOF err) eqn:He; [now right; left|].
    right; right; left. exists err. now split.
  - intros s0 line r' _ IH.
    destruct (openAIStream_turn_cases line r' (openAIStream_Recv (mkOpenAIStream r')))
      as [-> | (res & -> & [(r & ->) | [-> | [(m & ->) | (m & ->)]]])]; [exact IH|..].
    + left. now exists r.
    + now right; left.
    + right; right; right; left. now exists m.
    + right; right; right; right. now exists m.
Qed.

(** X2.  What a call of the OpenAI [Recv] leaves unread is the end of what was
    unread before; the final error of the body stays; and unless nothing was
    unread, the call has read something. *)
Theorem openAIStream_Recv_consumes (s : openAIStream) :
  exists used,
    pending (oa_reader s) = used ++ pending (oa_reader (snd (Recv s)))
    /\ at_end (oa_reader (snd (Recv s))) = at_end (oa_reader s)
    /\ (pending (oa_reader s) <> EmptyString -> used <> EmptyString).
Proof.
  cbn [Recv openAIStream_CompletionStream].
  apply (openAIStream_Recv_cases
           (fun s res =>
              exists used,
                pending (oa_reader s) = used ++ pending (oa_reader (snd res))
                /\ at_end (oa_reader (snd res)) = at_end (oa_reader s)
                /\ (pending (oa_reader s) <> EmptyString -> used <> EmptyString))).
  - intros s0 part err r' Hread. exists part. cbn [snd oa_reader].
    exact (ReadBytes_split _ _ _ _ Hread).
  - intros s0 line r' Hread (used & Hu & He & _).
    destruct (ReadBytes_split _ _ _ _ Hread) as (Hs & Ha & Hne).
    destruct (openAIStream_turn_cases line r' (openAIStream_Recv (mkOpenAIStream r')))
      as [-> | (res & -> & _)].
    + exists (line ++ used). cbn [oa_reader] in Hu, He.
      rewrite append_assoc, <- Hu. repeat split; [exact Hs | congruence|].
      intros Hp Happ. apply (Hne Hp). destruct line; [reflexivity | discriminate Happ].
    + exists line. cbn [snd oa_reader]. auto.
Qed.

(** X3.  The calls of the OpenAI [Recv] on a stream return fragments and then an
    error, and the fragments are not more than the bytes that were unread. *)
Theorem openAIStream_fragments_then_error (s : openAIStream) :
  exists (fs : list CompletionResponse) (e : error),
    (List.length fs <= length (pending (oa_reader s)))%nat
    /\ fst (Recv_n (S (List.length fs)) s) = (map ok fs ++ [fail e])%list.
Proof.
  remember (length (pending (oa_reader s))) as n eqn:Hn. revert s Hn.
  induction n as [n IH] using lt_wf_ind. intros s Hn.
  cbn [Recv openAIStream_CompletionStream] in *.
  destruct (openAIStream_Recv_ok_or_fail s) as [(r & Hr) | (e & He)].
  - destruct (openAIStream_Recv s) as [res s'] eqn:Hrecv. cbn [fst] in Hr. subst res.
    pose proof (openAIStream_Recv_shorter s s' (Some r) Hrecv) as Hlt.
    destruct (IH _ ltac:(subst n; exact Hlt) s' eq_refl) as (fs & e & Hlen & Hseq).
    exists (r :: fs), e. split; [cbn [List.length]; lia|].
    cbn [List.length]. rewrite Recv_n_S. cbn [Recv openAIStream_CompletionStream].
    rewrite Hrecv. cbn [fst snd map app]. now rewrite <- Hseq.
  - exists [], e. split; [cbn [List.length]; lia|].
    cbn [List.length]. rewrite Recv_n_S. cbn [Recv openAIStream_CompletionStream].
    rewrite He. reflexivity.
Qed.

(** X4.  Lines that do not start with the prefix once trimmed (blank lines,
    comments, [event:] and [id:] fields) are passed over, however many come
    before the next event. *)
Theorem openAIStream_Recv_skips (lines : list string) (more : string) (e : error) :
  Forall (fun l => cut_line l = None
                   /\ HasPrefix (TrimSpace (l ++ nl)) "data: " = false) lines ->
  Recv (mkOpenAIStream (mkReader (fold_right (fun l acc => l ++ nl ++ acc) more lines) e))
  = Recv (mkOpenAIStream (mkReader more e)).
Proof.
  cbn [Recv openAIStream_CompletionStream].
  induction 1 as [|l lines [Hcut Hpre] _ IH]; [reflexivity|].
  cbn [fold_right]. rewrite <- IH.
  apply (openAIStream_Recv_other _ (l ++ nl)); [|exact Hpre].
  cbn [oa_reader]. apply ReadBytes_line. exact Hcut.
Qed.

(** X5.  An event that no line feed ends is lost: when the body ends in the
    middle of a line, the OpenAI [Recv] returns [io.EOF] or the wrapped read
    error and the Anthropic [Recv] returns the read error as it is, and the
    bytes of the line are gone. *)
Theorem Recv_drops_unfinished_line (line : string) (e : error) :
  cut_line line = None ->
  Recv (mkOpenAIStream (mkReader line e))
  = (fail (if is_EOF e then io_EOF else Wrapf "failed to read stream" e),
     mkOpenAIStream (mkReader EmptyString e))
  /\ Recv (mkAnthropicStream (mkReader line e))
     = (fail e, mkAnthropicStream (mkReader EmptyString e)).
Proof.
  intros Hcut.
  assert (ReadBytes (mkReader line e) = ((line, Some e), mkReader EmptyString e)) as Hread.
  { unfold ReadBytes. cbn [pending at_end]. now rewrite Hcut. }
  split.
  - cbn [Recv openAIStream_CompletionStream].
    now rewrite (openAIStream_Recv_error (mkOpenAIStream (mkReader line e)) _ _ _ Hread).
  - cbn [Recv anthropicStream_CompletionStream]. unfold anthropicStream_Recv.
    cbn [an_reader]. now rewrite Hread.
Qed.

(** X6.  The Anthropic [Recv] returns nil twice only for an event that decodes to
    a response without error object and without content: a line that was
    read ends with its line feed, so the test for an empty payload never
    holds. *)
Theorem anthropicStream_Recv_nil_nil (s s' : anthropicStream) :
  Recv s = (nil_nil, s') ->
  exists line resp,
    ReadBytes (an_reader s) = ((line, None), an_reader s')
    /\ HasPrefix line "data: " = true
    /\ TrimPrefix line "data: " <> EmptyString
    /\ json_Unmarshal (TrimPrefix line "data: ") = inr resp
    /\ ar_Error resp = None
    /\ ar_Content resp = [].
Proof.
  cbn [Recv anthropicStream_CompletionStream]. unfold anthropicStream_Recv.
  destruct (ReadBytes (an_reader s)) as [[line [err|]] r'] eqn:Hread; [discriminate|].
  destruct (HasPrefix line "data: ") eqn:Hpre; cbn [negb]; [|discriminate].
  assert (TrimPrefix line "data: " <> EmptyString) as Hdata.
  { intros Hempty. pose proof (HasPrefix_split _ _ Hpre) as Hline.
    rewrite Hempty in Hline. cbn [append] in Hline.
    unfold ReadBytes in Hread.
    destruct (cut_line (pending (an_reader s))) as [[l m]|] eqn:Hcut; [|discriminate Hread].
    injection Hread as -> _.
    destruct (cut_line_split _ _ _ Hcut) as (_ & body & Hl & _).
    rewrite Hline in Hl.
    do 6 (destruct body as [|? body]; [discriminate Hl|]; injection Hl as <- Hl).
    destruct body; discriminate Hl. }
  cbv zeta. destruct (Nat.eqb (length (TrimPrefix line "data: ")) 0) eqn:Hlen.
  { apply Nat.eqb_eq in Hlen. destruct (TrimPrefix line "data: "); [now elim Hdata|discriminate Hlen]. }
  destruct (json_Unmarshal (TrimPrefix line "data: ")) as [msg|resp] eqn:Hjson; [discriminate|].
  destruct (ar_Error resp) eqn:Herr; [discriminate|].
  destruct (ar_Content resp) eqn:Hcontent; [|discriminate].
  intros H. injection H as <-. exists line, resp. cbn [an_reader]. auto 10.
Qed.

Lemma anthropicStream_Recv_shorter (s s' : anthropicStream) (x : option CompletionResponse) :
  anthropicStream_Recv s = ((x, None), s') ->
  (length (pending (an_reader s')) < length (pending (an_reader s)))%nat.
Proof.
  unfold anthropicStream_Recv.
  destruct (ReadBytes (an_reader s)) as [[line [err|]] r'] eqn:Hread; [discriminate|].
  pose proof (ReadBytes_shorter _ _ _ Hread) as Hlt.
  intros H. replace s' with (mkAnthropicStream r'); [exact Hlt|].
  destruct (negb _); [discriminate H|].
  destruct (Nat.eqb _ 0); [now injection H|].
  destruct (json_Unmarshal _) as [msg|resp]; [discriminate H|].
  destruct (ar_Error resp); [discriminate H|].
  destruct (ar_Content resp); now injection H.
Qed.

Lemma anthropicStream_Recv_error_is_fail (s : anthropicStream) (e : error) :
  snd (fst (anthropicStream_Recv s)) = Some e -> fst (anthropicStream_Recv s) = fail e.
Proof.
  unfold anthropicStream_Recv.
  destruct (ReadBytes (an_reader s)) as [[line [err|]] r'].
  { cbn. now intros [= ->]. }
  destruct (negb _); [cbn; now intros [= <-]|].
  destruct (Nat.eqb _ 0); [discriminate|].
  destruct (json_Unmarshal _) as [msg|resp]; [cbn; now intros [= <-]|].
  destruct (ar_Error resp); [cbn; now intros [= <-]|].
  destruct (ar_Content resp); discriminate.
Qed.

(** X7.  The calls of the Anthropic [Recv] on a stream come to an error after at
    most as many error-free calls as bytes were unread. *)
Theorem anthropicStream_error_within (s : anthropicStream) :
  exists (rs : list (result CompletionResponse)) (e : error),
    (List.length rs <= length (pending (an_reader s)))%nat
    /\ Forall (fun r => snd r = None) rs
    /\ fst (Recv_n (S (List.length rs)) s) = (rs ++ [fail e])%list.
Proof.
  remember (length (pending (an_reader s))) as n eqn:Hn. revert s Hn.
  induction n as [n IH] using lt_wf_ind. intros s Hn.
  destruct (anthropicStream_Recv s) as [[x [e|]] s'] eqn:Hrecv.
  - exists [], e. split; [cbn [List.length]; lia|]. split; [constructor|].
    cbn [List.length app]. rewrite Recv_n_S. cbn [Recv anthropicStream_CompletionStream Recv_n fst].
    rewrite (anthropicStream_Recv_error_is_fail s e); [reflexivity | now rewrite Hrecv].
  - pose proof (anthropicStream_Recv_shorter _ _ _ Hrecv) as Hlt.
    destruct (IH _ ltac:(subst n; exact Hlt) s' eq_refl) as (rs & e & Hlen & Hall & Hseq).
    exists ((x, None) :: rs), e. split; [cbn [List.length]; lia|].
    split; [now constructor|].
    cbn [List.length]. rewrite Recv_n_S. cbn [Recv anthropicStream_CompletionStream].
    rewrite Hrecv. cbn [fst snd app]. now rewrite <- Hseq.
Qed.

(** The text of an error of the OpenAI [Recv] is [EOF] for [io.EOF] alone:
    the other errors start with their own words. *)
Lemma openAIStream_Recv_EOF_text (s : openAIStream) :
  match snd (fst (Recv s)) with
  | Some e => String.eqb (Error e) "EOF" = is_EOF e
  | None => True
  end.
Proof.
  cbn [Recv openAIStream_CompletionStream].
  apply (openAIStream_Recv_cases
           (fun _ res =>
              match snd (fst res) with
              | Some e => String.eqb (Error e) "EOF" = is_EOF e
              | None => True
              end)).
  - intros s0 part err r' _. cbn [fst snd fail]. destruct (is_EOF err); reflexivity.
  - intros s0 line r' _ IH.
    destruct (openAIStream_turn_cases line r' (openAIStream_Recv (mkOpenAIStream r')))
      as [-> | (res & -> & [(r & ->) | [-> | [(m & ->) | (m & ->)]]])];
      [exact IH | reflexivity ..].
Qed.

End StreamFacts.


(** ** The receiving loops of the examples *)

Section ExampleFacts.

Context {openai_json : JSON openaiResponse}.

Lemma runStreamingCompletion_loop_stop (s s' : openAIStream) (out : string)
    (x : option CompletionResponse) (err : error) :
  openAIStream_Recv s = ((x, Some err), s') ->
  runStreamingCompletion_loop s out
  = if String.eqb (Error err) "EOF" then (out, Break)
    else (out, Return (Wrapf "error receiving stream" err)).
Proof.
  intros H. rewrite runStreamingCompletion_loop_equation_1.
  destruct (inspect (openAIStream_Recv s)) as [[[c e] s''] E].
  assert (E' := E). rewrite H in E'. injection E' as <- <- <-. reflexivity.
Qed.

Lemma runStreamingCompletion_loop_next (s s' : openAIStream) (out : string)
    (chunk : CompletionResponse) :
  openAIStream_Recv s = ((Some chunk, None), s') ->
  runStreamingCompletion_loop s out
  = runStreamingCompletion_loop s'
      (if negb (String.eqb (Content chunk) EmptyString) then out ++ Content chunk else out).
Proof.
  intros H. rewrite runStreamingCompletion_loop_equation_1.
  destruct (inspect (openAIStream_Recv s)) as [[[c e] s''] E].
  assert (E' := E). rewrite H in E'. injection E' as <- <- <-. reflexivity.
Qed.

Lemma runStreamingExample_loop_stop (s s' : openAIStream) (calls : list ToolCall)
    (out : string) (x : option CompletionResponse) (err : error) :
  openAIStream_Recv s = ((x, Some err), s') ->
  runStreamingExample_loop s calls out
  = if is_EOF err then ((calls, out), Break)
    else ((calls, out), Return (Wrapf "error receiving stream" err)).
Proof.
  intros H. rewrite runStreamingExample_loop_equation_1.
  destruct (inspect (openAIStream_Recv s)) as [[[c e] s''] E].
  assert (E' := E). rewrite H in E'. injection E' as <- <- <-. reflexivity.
Qed.

Lemma runStreamingExample_loop_next (s s' : openAIStream) (calls : list ToolCall)
    (out : string) (chunk : CompletionResponse) :
  openAIStream_Recv s = ((Some chunk, None), s') ->
  runStreamingExample_loop s calls out
  = runStreamingExample_loop s'
      (if Nat.ltb 0 (List.length (ToolCalls chunk)) then (calls ++ ToolCalls chunk)%list
       else calls)
      (if negb (String.eqb (Content chunk) EmptyString) then out ++ Content chunk else out).
Proof.
  intros H. rewrite runStreamingExample_loop_equation_1.
  destruct (inspect (openAIStream_Recv s)) as [[[c e] s''] E].
  assert (E' := E). rewrite H in E'. injection E' as <- <- <-. reflexivity.
Qed.

(** X8.  On every OpenAI stream the loop of the chat example and the loop of the
    tools example print the same text and are left the same way, the one
    testing the text of the error and the other the error itself; and
    neither reads a field of a nil response. *)
Theorem example_loops_agree (s : openAIStream) (calls : list ToolCall) (out : string) :
  runStreamingCompletion_loop s out
  = (snd (fst (runStreamingExample_loop s calls out)),
     snd (runStreamingExample_loop s calls out))
  /\ snd (runStreamingExample_loop s calls out) <> Panic.
Proof.
  remember (length (pending (oa_reader s))) as n eqn:Hn. revert s calls out Hn.
  induction n as [n IH] using lt_wf_ind. intros s calls out Hn.
  pose proof (openAIStream_Recv_EOF_text s) as Htext.
  cbn [Recv openAIStream_CompletionStream] in Htext.
  destruct (openAIStream_Recv_ok_or_fail s) as [(r & Hr) | (e & He)];
    destruct (openAIStream_Recv s) as [res s'] eqn:Hrecv; cbn [fst] in *; subst res.
  - rewrite (runStreamingCompletion_loop_next _ _ _ _ Hrecv).
    rewrite (runStreamingExample_loop_next _ _ _ _ _ Hrecv).
    apply (IH (length (pending (oa_reader s')))); [|reflexivity].
    subst n. exact (openAIStream_Recv_shorter _ _ _ Hrecv).
  - rewrite (runStreamingCompletion_loop_stop _ _ _ _ _ Hrecv).
    rewrite (runStreamingExample_loop_stop _ _ _ _ _ _ Hrecv).
    cbn [snd fail] in Htext. rewrite Htext.
    destruct (is_EOF e); split; (reflexivity || discriminate).
Qed.

(** X9.  The loop of the tools example on any OpenAI stream: the calls of [Recv]
    return some fragments and then an error; the loop has then gathered the
    tool calls of all the fragments, in order and as they came, and printed
    their contents; it is left by [break] when the error is [io.EOF] and by
    returning the wrapped error otherwise. *)
Theorem runStreamingExample_loop_gathers (s : openAIStream) (calls : list ToolCall)
    (out : string) :
  exists (fs : list CompletionResponse) (e : error),
    fst (Recv_n (S (List.length fs)) s) = (map ok fs ++ [fail e])%list
    /\ runStreamingExample_loop s calls out
       = (((calls ++ flat_map ToolCalls fs)%list,
           out ++ fold_right (fun f acc => Content f ++ acc) EmptyString fs),
          if is_EOF e then Break else Return (Wrapf "error receiving stream" e)).
Proof.
  remember (length (pending (oa_reader s))) as n eqn:Hn. revert s calls out Hn.
  induction n as [n IH] using lt_wf_ind. intros s calls out Hn.
  destruct (openAIStream_Recv_ok_or_fail s) as [(r & Hr) | (e & He)];
    destruct (openAIStream_Recv s) as [res s'] eqn:Hrecv; cbn [fst] in *; subst res.
  - rewrite (runStreamingExample_loop_next _ _ _ _ _ Hrecv).
    pose proof (openAIStream_Recv_shorter _ _ _ Hrecv) as Hlt.
    destruct (IH _ ltac:(subst n; exact Hlt) s'
                (if Nat.ltb 0 (List.length (ToolCalls r)) then (calls ++ ToolCalls r)%list
                 else calls)
                (if negb (String.eqb (Content r) EmptyString) then out ++ Content r else out)
                eq_refl) as (fs & e & Hseq & Hloop).
    exists (r :: fs), e. split.
    + cbn [List.length]. rewrite Recv_n_S. cbn [Recv openAIStream_CompletionStream].
      rewrite Hrecv. cbn [fst snd map app]. now rewrite <- Hseq.
    + rewrite Hloop. cbn [flat_map fold_right]. f_equal. f_equal.
      * destruct (ToolCalls r) as [|t ts]; cbn [List.length Nat.ltb Nat.leb app].
        -- reflexivity.
        -- now rewrite <- app_assoc.
      * destruct (String.eqb_spec (Content r) EmptyString) as [->|_]; cbn [negb append].
        -- reflexivity.
        -- now rewrite append_assoc.
  - exists [], e. split.
    + cbn [List.length]. rewrite Recv_n_S. cbn [Recv openAIStream_CompletionStream].
      rewrite Hrecv. reflexivity.
    + rewrite (runStreamingExample_loop_stop _ _ _ _ _ _ Hrecv).
      cbn [flat_map fold_right]. rewrite app_nil_r, append_empty_r.
      destruct (is_EOF e); reflexivity.
Qed.

End ExampleFacts.

(** ** Every run of the retry loop *)

Section RetryFacts.

Context {openai_json : JSON openaiResponse}.

Variable script : nat -> Exchange.
Variable ctx_done : nat -> bool.
Variable ctx_Err : string.
Variable rc : RetryConfig.

Lemma OpenAIClient_complete_on_ok_or_fail (x : Exchange) :
  (exists r, OpenAIClient_complete_on x = ok r)
  \/ (exists e, OpenAIClient_complete_on x = fail e).
Proof.
  destruct x as [m|m|m|resp]; cbn [OpenAIClient_complete_on];
    try (right; eexists; reflexivity).
  destruct (negb _).
  { destruct (io_ReadAll (RespBody resp)) as [[body o] b']. right; eexists; reflexivity. }
  destruct (json_Decode (RespBody resp)) as [f|r]; [right; eexists; reflexivity|].
  destruct (or_Error r); [right; eexists; reflexivity|].
  destruct (or_Choices r); [right | left]; eexists; reflexivity.
Qed.

(** One iteration of the loop of [Complete], at attempt [a]. *)
Lemma Complete_loop_S (n a : nat) (last : option error) (w : World) :
  started w = a ->
  Complete_loop script ctx_done ctx_Err rc (S n) (Z.of_nat a) last w
  = if Nat.leb 1 a && ctx_done a
    then (fail (CtxError ctx_Err),
          mkWorld a (Interrupted (getRetryDelay rc (Z.of_nat a)) :: history w))
    else match OpenAIClient_complete_on (script a) with
         | (resp, None) => ((resp, None), round rc w)
         | (_, Some e) =>
             if shouldRetry rc e
             then Complete_loop script ctx_done ctx_Err rc n (Z.of_nat (S a)) (Some e)
                    (round rc w)
             else (fail e, round rc w)
         end.
Proof.
  intros Hw. cbn [Complete_loop].
  unfold select_Done_After, OpenAIClient_complete, exchange, round. rewrite Hw.
  destruct a as [|a'].
  - cbn [Z.of_nat Z.gtb Z.compare Nat.leb andb Nat.eqb]. rewrite Hw.
    destruct (OpenAIClient_complete_on (script 0)) as [resp [e|]]; [|reflexivity].
    destruct (shouldRetry rc e); reflexivity.
  - replace (Z.of_nat (S a') >? 0)%Z with true by (symmetry; apply Z.gtb_lt; lia).
    cbn [Nat.leb andb Nat.eqb]. destruct (ctx_done (S a')); [reflexivity|].
    cbn [started].
    destruct (OpenAIClient_complete_on (script (S a'))) as [resp [e|]]; [|reflexivity].
    destruct (shouldRetry rc e); [|reflexivity]. cbn [negb]. f_equal. lia.
Qed.





(** X13.  An attempt that fails with an error that is not retried ends the run,
    at whatever attempt it comes: after [k] retryable failures [Complete]
    returns the error of attempt [k] as it is, and has made [k + 1]
    requests. *)
Theorem Complete_fatal_error_at (k : nat) (e : error) :
  (k <= Z.to_nat (MaxRetries rc))%nat ->
  (0 <= MaxRetries rc)%Z ->
  (forall j, j < k -> retryable_at script rc j)%nat ->
  (forall j, 1 <= j <= k -> ctx_done j = false)%nat ->
  OpenAIClient_complete_on (script k) = fail e ->
  shouldRetry rc e = false ->
  OpenAIClient_Complete script ctx_done ctx_Err rc World0 = (fail e, rounds rc (S k)).
Proof.
  intros Hk Hmax Hfail Hctx Hx Hs. unfold OpenAIClient_Complete.
  replace (Z.to_nat (MaxRetries rc + 1))
    with (k + S (Z.to_nat (MaxRetries rc) - k))%nat by lia.
  rewrite Complete_loop_rounds; [|exact Hfail | intros; apply Hctx; lia].
  rewrite (Complete_loop_S _ k _ _ (started_rounds rc k)).
  destruct (Nat.leb_spec 1 k) as [H1|H1]; cbn [andb].
  - rewrite (Hctx k ltac:(lia)), Hx. cbn [fail]. now rewrite Hs.
  - rewrite Hx. cbn [fail]. now rewrite Hs.
Qed.

(** X14.  A policy without retryable status codes retries nothing: whatever
    [MaxRetries] says, [Complete] makes one request and returns what that
    attempt gave. *)
Theorem Complete_without_status_codes :
  RetryableStatusCodes rc = [] ->
  (0 <= MaxRetries rc)%Z ->
  OpenAIClient_Complete script ctx_done ctx_Err rc World0
  = (OpenAIClient_complete_on (script 0), mkWorld 1 [Requested 0]).
Proof.
  intros Hcodes Hmax. unfold OpenAIClient_Complete.
  replace (Z.to_nat (MaxRetries rc + 1)) with (S (Z.to_nat (MaxRetries rc))) by lia.
  rewrite (Complete_loop_S _ 0 None World0 eq_refl). cbn [Nat.leb andb].
  destruct (OpenAIClient_complete_on_ok_or_fail (script 0)) as [(r & ->) | (e & ->)];
    [reflexivity|].
  cbn [fail]. unfold shouldRetry. rewrite Hcodes.
  destruct (errors_As_HTTPError e) as [[code msg]|]; reflexivity.
Qed.

(** X16.  [complete] returns an [HTTPError] exactly for a response whose status
    is not 200, and the error then carries the status and what could be read
    of the body, whatever the body holds. *)
Theorem complete_HTTPError_iff (x : Exchange) (code : Z) (msg : string) :
  OpenAIClient_complete_on x = fail (HTTPError code msg)
  <-> exists resp,
      x = DoReturns resp
      /\ StatusCode resp = code
      /\ code <> http_StatusOK
      /\ msg = fst (fst (io_ReadAll (RespBody resp))).
Proof.
  split.
  - destruct x as [m|m|m|resp]; cbn [OpenAIClient_complete_on]; try discriminate.
    destruct (Z.eqb_spec (StatusCode resp) http_StatusOK) as [H200|H200]; cbn [negb].
    + destruct (json_Decode (RespBody resp)) as [f|r]; [discriminate|].
      destruct (or_Error r); [discriminate|]. destruct (or_Choices r); discriminate.
    + destruct (io_ReadAll (RespBody resp)) as [[body o] b'] eqn:Hread.
      intros [= <- <-]. exists resp. rewrite Hread. auto.
  - intros (resp & -> & <- & H200 & ->). cbn [OpenAIClient_complete_on].
    destruct (Z.eqb_spec (StatusCode resp) http_StatusOK) as [H|_]; [contradiction|].
    cbn [negb]. destruct (io_ReadAll (RespBody resp)) as [[body o] b']. reflexivity.
Qed.




End RetryFacts.

(** ** Delays, streams at their opening, configuration *)

(** X17.  The delay never exceeds [MaxDelay], overflow or not; and as long as
    nothing overflows and [InitialDelay] is not negative, a later attempt
    waits at least as long as an earlier one. *)
Theorem getRetryDelay_capped_and_monotone (rc : RetryConfig) :
  (forall n, getRetryDelay rc n <= MaxDelay rc)%Z
  /\ (forall n m,
        (1 <= n <= m)%Z -> (m <= 63)%Z ->
        (0 <= InitialDelay rc)%Z ->
        (InitialDelay rc * 2 ^ (m - 1) < 2 ^ 63)%Z ->
        (getRetryDelay rc n <= getRetryDelay rc m)%Z).
Proof.
  split.
  - intros n. unfold getRetryDelay.
    destruct (Z.gtb_spec (int64_mul (InitialDelay rc) (int64_shl 1 (uint64_of (n - 1))))
                (MaxDelay rc)); lia.
  - intros n m Hnm Hm Hinit Hfit.
    assert (0 < 2 ^ (n - 1) <= 2 ^ (m - 1))%Z as Hpow.
    { split; [apply Z.pow_pos_nonneg; lia | apply Z.pow_le_mono_r; lia]. }
    assert (InitialDelay rc * 2 ^ (n - 1) <= InitialDelay rc * 2 ^ (m - 1))%Z as Hle.
    { apply Z.mul_le_mono_nonneg_l; lia. }
    rewrite !getRetryDelay_in_range; try lia; nia.
Qed.

Section OpeningFacts.

Variable script : nat -> Exchange.

(** X18.  What [CompleteStream] returns.  The OpenAI client returns a stream
    exactly for a response with status 200, and the stream then reads that
    body from its first byte; for a response with another status it returns
    an [HTTPError] with that status.  The Anthropic client returns a stream
    exactly when there is a response, whatever its status, and no error it
    returns is or wraps an [HTTPError].  Either call returns a stream or an
    error, never nil twice. *)
Theorem CompleteStream_stream_iff (w : World) :
  (forall st,
      fst (fst (OpenAIClient_CompleteStream script w)) = ok st
      <-> exists resp,
          script (started w) = DoReturns resp
          /\ StatusCode resp = http_StatusOK
          /\ st = mkOpenAIStream (bufio_NewReader (RespBody resp)))
  /\ (forall st,
        fst (fst (AnthropicClient_CompleteStream script w)) = ok st
        <-> exists resp,
            script (started w) = DoReturns resp
            /\ st = mkAnthropicStream (bufio_NewReader (RespBody resp)))
  /\ (forall resp,
        script (started w) = DoReturns resp ->
        StatusCode resp <> http_StatusOK ->
        exists msg,
          fst (fst (OpenAIClient_CompleteStream script w))
          = fail (HTTPError (StatusCode resp) msg))
  /\ (forall e,
        snd (fst (fst (AnthropicClient_CompleteStream script w))) = Some e ->
        errors_As_HTTPError e = None)
  /\ ((exists st, fst (fst (OpenAIClient_CompleteStream script w)) = ok st)
      \/ (exists e, fst (fst (OpenAIClient_CompleteStream script w)) = fail e))
  /\ ((exists st, fst (fst (AnthropicClient_CompleteStream script w)) = ok st)
      \/ (exists e, fst (fst (AnthropicClient_CompleteStream script w)) = fail e)).
Proof.
  unfold OpenAIClient_CompleteStream, AnthropicClient_CompleteStream, exchange.
  cbn [fst snd]. split; [|split; [|split; [|split; [|split]]]].
  - intros st. split.
    + destruct (script (started w)) as [m|m|m|resp]; cbn [fst]; try discriminate.
      destruct (Z.eqb_spec (StatusCode resp) http_StatusOK) as [H200|H200]; cbn [negb].
      * intros [= <-]. now exists resp.
      * destruct (io_ReadAll (Body_Close (RespBody resp))) as [[body o] b']. discriminate.
    + intros (resp & -> & H200 & ->). rewrite H200. reflexivity.
  - intros st. split.
    + destruct (script (started w)) as [m|m|m|resp]; cbn [fst]; try discriminate.
      intros [= <-]. now exists resp.
    + intros (resp & -> & ->). reflexivity.
  - intros resp -> H200. apply Z.eqb_neq in H200. rewrite H200. cbn [negb].
    destruct (io_ReadAll (Body_Close (RespBody resp))) as [[body o] b'].
    now exists body.
  - intros e. destruct (script (started w)) as [m|m|m|resp]; cbn [fst snd fail ok];
      [intros [= <-]; reflexivity .. | discriminate].
  - destruct (script (started w)) as [m|m|m|resp]; cbn [fst];
      try (right; eexists; reflexivity).
    destruct (negb _); [|left; eexists; reflexivity].
    destruct (io_ReadAll (Body_Close (RespBody resp))) as [[body o] b'].
    right; eexists; reflexivity.
  - destruct (script (started w)) as [m|m|m|resp]; cbn [fst];
      [right; eexists; reflexivity .. | left; eexists; reflexivity].
Qed.

End OpeningFacts.

Lemma TrimRight_slash_app_slash (s : string) :
  TrimRight_slash (s ++ "/") = TrimRight_slash s.
Proof.
  induction s as [|c s IH]; [reflexivity|].
  cbn [append TrimRight_slash]. now rewrite IH.
Qed.

Lemma TrimRight_slash_no_slash (s t : string) : TrimRight_slash s <> t ++ "/".
Proof.
  revert t. induction s as [|c s IH]; intros t; cbn [TrimRight_slash].
  - destruct t; discriminate.
  - destruct (TrimRight_slash s) as [|d u] eqn:Hs.
    + destruct (Nat.eqb (code c) 47) eqn:Hc.
      * destruct t; discriminate.
      * destruct t as [|x t]; cbn [append].
        -- intros [= ->]. discriminate Hc.
        -- intros [= _ H]. destruct t; discriminate H.
    + destruct t as [|x t]; cbn [append].
      * discriminate.
      * intros [= _ H]. exact (IH t H).
Qed.

Lemma TrimRight_slash_split (s : string) :
  exists n, s = TrimRight_slash s ++ slashes n.
Proof.
  induction s as [|c s [n IH]]; [now exists 0%nat|].
  cbn [TrimRight_slash]. destruct (TrimRight_slash s) as [|d u] eqn:Hs.
  - cbn [append] in IH. destruct (Nat.eqb (code c) 47) eqn:Hc.
    + exists (S n). cbn [append slashes]. rewrite <- IH. f_equal.
      apply Nat.eqb_eq in Hc. unfold code in Hc.
      rewrite <- (ascii_nat_embedding c), Hc. reflexivity.
    + exists n. cbn [append]. now rewrite <- IH.
  - exists n. cbn [append] in *. now rewrite <- IH.
Qed.

(** X19.  The URL of a request is [BaseURL] without the slashes at its end,
    followed by the path: one more slash at the end of [BaseURL] changes
    nothing, and the URL never ends with the path after two slashes. *)
Theorem endpoint_trailing_slash (key base : string) (timeout : Z)
    (hc : option http_Client) (retry : option RetryConfig) :
  endpoint (mkOpenAIClient (mkOpenAIConfig key (base ++ "/") timeout hc retry) hc)
  = endpoint (mkOpenAIClient (mkOpenAIConfig key base timeout hc retry) hc)
  /\ (exists (stem : string) (n : nat),
        base = stem ++ slashes n
        /\ (forall t, stem <> t ++ "/")
        /\ endpoint (mkOpenAIClient (mkOpenAIConfig key base timeout hc retry) hc)
           = stem ++ "/chat/completions")
  /\ forall t,
      endpoint (mkOpenAIClient (mkOpenAIConfig key base timeout hc retry) hc)
      <> t ++ "//chat/completions".
Proof.
  unfold endpoint. cbn [config BaseURL]. split; [|split].
  - now rewrite TrimRight_slash_app_slash.
  - destruct (TrimRight_slash_split base) as [n Hn].
    exists (TrimRight_slash base), n. split; [exact Hn|]. split; [|reflexivity].
    intros t. apply TrimRight_slash_no_slash.
  - intros t H.
    assert (forall a b c : string, a ++ c = b ++ c -> a = b) as Hcancel.
    { intros a b c. revert b. induction a as [|x a IHa]; intros [|y b] Hab; cbn [append] in Hab.
      - reflexivity.
      - exfalso. apply (f_equal length) in Hab. cbn [length] in Hab.
        rewrite length_append in Hab. lia.
      - exfalso. apply (f_equal length) in Hab. cbn [length] in Hab.
        rewrite length_append in Hab. lia.
      - injection Hab as -> Hab. now rewrite (IHa b Hab). }
    change (t ++ "//chat/completions") with (t ++ ("/" ++ "/chat/completions")) in H.
    rewrite <- append_assoc in H. apply Hcancel in H.
    exact (TrimRight_slash_no_slash _ _ H).
Qed.

(** X20.  [NewOpenAIClient] fills what the configuration leaves out and nothing
    else.  The key is kept as it is, even an empty one.  A base URL that is
    not empty, a timeout that is not zero, an HTTP client and a retry
    configuration that are not nil are kept as they are, the HTTP client
    with its own timeout; an empty base URL, a zero timeout, a nil HTTP
    client and a nil retry configuration are replaced by the defaults, the
    new HTTP client with the timeout of the configuration after its
    default.  So in the client every field is set, and a client made from
    the configuration of a client is that client. *)
Theorem NewOpenAIClient_fills_defaults (cfg : OpenAIConfig) :
  let c := NewOpenAIClient cfg in
  APIKey (config c) = APIKey cfg
  /\ (BaseURL cfg <> EmptyString -> BaseURL (config c) = BaseURL cfg)
  /\ (BaseURL cfg = EmptyString -> BaseURL (config c) = defaultBaseURL)
  /\ (Timeout cfg <> 0%Z -> Timeout (config c) = Timeout cfg)
  /\ (Timeout cfg = 0%Z -> Timeout (config c) = defaultTimeout)
  /\ (forall h, HTTPClient cfg = Some h -> HTTPClient (config c) = Some h)
  /\ (HTTPClient cfg = None
      -> HTTPClient (config c) = Some (mk_http_Client (Timeout (config c))))
  /\ (forall r, cfg_RetryConfig cfg = Some r -> cfg_RetryConfig (config c) = Some r)
  /\ (cfg_RetryConfig cfg = None
      -> cfg_RetryConfig (config c)
         = Some (mkRetryConfig 3 time_Second (5 * time_Second) [429; 500; 502; 503]%Z))
  /\ BaseURL (config c) <> EmptyString
  /\ Timeout (config c) <> 0%Z
  /\ HTTPClient (config c) <> None
  /\ httpClient c = HTTPClient (config c)
  /\ cfg_RetryConfig (config c) <> None
  /\ NewOpenAIClient (config c) = c.
Proof.
  destruct cfg as [key base timeout hc retry]. unfold NewOpenAIClient.
  cbn [APIKey BaseURL Timeout HTTPClient cfg_RetryConfig config httpClient].
  destruct (String.eqb base EmptyString) eqn:Hb;
    destruct (timeout =? 0)%Z eqn:Ht;
    destruct hc as [c|]; destruct retry as [r|];
    repeat split; intros; try discriminate;
    cbn [NewOpenAIClient_RetryConfig]; rewrite ?Hb, ?Ht;
    try reflexivity; try assumption;
    try (apply String.eqb_neq; assumption);
    try (apply Z.eqb_neq; assumption);
    try (apply String.eqb_eq in Hb; congruence);
    try (apply String.eqb_neq in Hb; congruence);
    try (apply Z.eqb_eq in Ht; congruence);
    try (apply Z.eqb_neq in Ht; congruence).
Qed.

(** ** Runs *)

Import MoreRuns.

(** The configuration of the weather example: its timeout is kept, its
    base URL is the default. *)
Lemma NewOpenAIClient_fills_defaults_witness :
  Timeout (config (NewOpenAIClient (weather_config "sk-test"))) = (60 * time_Second)%Z
  /\ BaseURL (config (NewOpenAIClient (weather_config "sk-test"))) = defaultBaseURL.
Proof.
  split.
  - apply (proj1 (proj2 (proj2 (proj2
             (NewOpenAIClient_fills_defaults (weather_config "sk-test")))))).
    discriminate.
  - apply (proj1 (proj2 (proj2
             (NewOpenAIClient_fills_defaults (weather_config "sk-test"))))).
    reflexivity.
Defined.

(** Status 401 at the opening of an OpenAI stream. *)
Lemma CompleteStream_stream_iff_witness :
  exists msg,
    fst (fst (OpenAIClient_CompleteStream (fun _ => unauthorized) World0))
    = fail (HTTPError 401 msg).
Proof.
  apply (proj1 (proj2 (proj2 (CompleteStream_stream_iff (fun _ => unauthorized) World0)))
           (mkResponse 401
              (mkBody (dq "{'error':{'message':'Invalid API key'}}") io_EOF false))).
  - reflexivity.
  - discriminate.
Defined.

(** The reply of the test under status 500 and under status 200. *)
Lemma AnthropicClient_Complete_one_attempt_witness :
  fst (AnthropicClient_Complete (replies_with 500) World0)
  = fst (AnthropicClient_Complete (replies_with 200) World0).
Proof.
  apply (proj2 (proj2 (AnthropicClient_Complete_one_attempt (replies_with 500)))
           (replies_with 200) World0 World0
           (mkResponse 500 test_response) (mkResponse 200 test_response));
    reflexivity.
Defined.

(** An [event] field, a blank line, a comment and an [id] field before an
    event. *)
Lemma openAIStream_Recv_skips_witness :
  Recv (mkOpenAIStream
          (mkReader (fold_right (fun l acc => l ++ nl ++ acc) (hello_event ++ nl) other_fields)
             io_EOF))
  = Recv (mkOpenAIStream (mkReader (hello_event ++ nl) io_EOF)).
Proof.
  apply (openAIStream_Recv_skips other_fields (hello_event ++ nl) io_EOF).
  repeat (constructor; [split; reflexivity|]). constructor.
Defined.

(** A body that ends right after an event, without the line feed. *)
Lemma Recv_drops_unfinished_line_witness :
  Recv (mkOpenAIStream (mkReader hello_event io_EOF))
  = (fail io_EOF, mkOpenAIStream (mkReader EmptyString io_EOF))
  /\ Recv (mkAnthropicStream (mkReader hello_event io_EOF))
     = (fail io_EOF, mkAnthropicStream (mkReader EmptyString io_EOF)).
Proof. apply (Recv_drops_unfinished_line hello_event io_EOF). reflexivity. Defined.

(** The event with an empty content list. *)
Lemma anthropicStream_Recv_nil_nil_witness :
  exists line resp,
    ReadBytes (an_reader (anthropic_stream (dq "data: {'content':[]}" ++ nl)))
    = ((line, None), an_reader (anthropic_stream EmptyString))
    /\ HasPrefix line "data: " = true
    /\ TrimPrefix line "data: " <> EmptyString
    /\ json_Unmarshal (TrimPrefix line "data: ") = inr resp
    /\ ar_Error resp = None
    /\ ar_Content resp = [].
Proof.
  apply (anthropicStream_Recv_nil_nil (anthropic_stream (dq "data: {'content':[]}" ++ nl))).
  reflexivity.
Defined.



(** Status 429 and then status 401: two requests. *)
Lemma Complete_fatal_error_at_witness :
  OpenAIClient_Complete busy_then_unauthorized never "" test_policy World0
  = (fail (HTTPError 401 (dq "{'error':{'message':'Invalid API key'}}")),
     rounds test_policy 2).
Proof.
  apply (Complete_fatal_error_at busy_then_unauthorized never "" test_policy 1).
  - apply Nat.leb_le. reflexivity.
  - discriminate.
  - intros j Hj. exists 429%Z, EmptyString.
    destruct j as [|j]; [split; [reflexivity | left; reflexivity]|].
    exfalso. apply Nat.ltb_lt in Hj. discriminate Hj.
  - intros j _. reflexivity.
  - reflexivity.
  - reflexivity.
Defined.

(** The policy of the chat example against a server that answers 429. *)
Lemma Complete_without_status_codes_witness :
  OpenAIClient_Complete (fun _ => too_many_requests) never "" chat_policy World0
  = (fail (HTTPError 429 EmptyString), mkWorld 1 [Requested 0]).
Proof.
  apply (Complete_without_status_codes (fun _ => too_many_requests) never "" chat_policy).
  - reflexivity.
  - discriminate.
Defined.

(** The default delays before attempts 1 and 3. *)
Lemma getRetryDelay_capped_and_monotone_witness :
  (getRetryDelay (NewOpenAIClient_RetryConfig None) 1
   <= getRetryDelay (NewOpenAIClient_RetryConfig None) 3)%Z.
Proof.
  apply (proj2 (getRetryDelay_capped_and_monotone (NewOpenAIClient_RetryConfig None)) 1%Z 3%Z).
  - split; discriminate.
  - discriminate.
  - discriminate.
  - reflexivity.
Defined.

